(** * Claims metrics pipeline of [dashboard.py]

    A shallow embedding of the data pipeline of the insurance-claims dashboard
    ([src/.vscode/dashboard.py]): column validation, type coercion and
    cleaning, the four derived totals, the year / payer filter, the two
    grouped tables and the spreadsheet export.

    Modelling conventions.
    - The uploaded file is a grid of text cells under a header of column
      names; an empty cell is [None].  The two pandas parsers the script
      calls ([pd.to_numeric], [pd.to_datetime]) are library code: they are
      section variables, and two small concrete parsers are supplied for
      running the pipeline on examples.
    - In the tables (cleaning, filter, grouping) an amount is an exact
      rational ([Q]), which stands for the [int64] or [float64] value of
      the cell: what is stated there is which rows, groups and cells a
      table has and which values feed them.  What lines 47-50 compute in
      the arithmetic of the machine ([int64] wrap-around, binary64
      rounding, numpy's [round]) is the subject of [Machine].
    - Column names are byte strings; [strip] is [str.strip()] on names
      written in ASCII.
    - A DataFrame after cleaning is the list of its rows, in row order; a
      Series is the list of its values; arithmetic on Series is pointwise.
    - [st.stop()] ends the script run; an exception raised inside the [try]
      block is caught by the handler of line 221 and reported. *)

From Stdlib Require Import ZArith QArith Qround Qabs List String Ascii Bool Lia Lqa
  Sorted Permutation Setoid Morphisms.
From Stdlib Require PrimFloat SpecFloat FloatOps.
Import ListNotations.
Open Scope string_scope.
Open Scope list_scope.
Open Scope Z_scope.
Open Scope Q_scope.

(* ================================================================== *)
(** ** Numbers: rounding to a number of decimals

    Rounding on exact rationals, for the tables; the rounding of the
    machine is [Machine.round]. *)

Module Rounding.

(** Nearest integer, ties to the even one (what [np.round] does to the
    scaled value). *)
Definition rint (x : Q) : Z :=
  let f := Qfloor x in
  match Qcompare (x - inject_Z f) (1 # 2) with
  | Lt => f
  | Gt => (f + 1)%Z
  | Eq => if Z.even f then f else (f + 1)%Z
  end.

Definition pow10 (decimals : nat) : Q := inject_Z (10 ^ Z.of_nat decimals).

(** [round(x, decimals)] *)
Definition round (x : Q) (decimals : nat) : Q :=
  inject_Z (rint (x * pow10 decimals)) / pow10 decimals.

End Rounding.
Export Rounding.

(* ================================================================== *)
(** ** Dates *)

Inductive Month :=
  Jan | Feb | Mar | Apr | May | Jun | Jul | Aug | Sep | Oct | Nov | Dec.

Record date := { year : Z; month : Month; day : Z }.

(** [strftime('%b')], English locale *)
Definition strftime_b (m : Month) : string :=
  match m with
  | Jan => "Jan" | Feb => "Feb" | Mar => "Mar" | Apr => "Apr"
  | May => "May" | Jun => "Jun" | Jul => "Jul" | Aug => "Aug"
  | Sep => "Sep" | Oct => "Oct" | Nov => "Nov" | Dec => "Dec"
  end.

Definition month_number (m : Month) : Z :=
  match m with
  | Jan => 1 | Feb => 2 | Mar => 3 | Apr => 4 | May => 5 | Jun => 6
  | Jul => 7 | Aug => 8 | Sep => 9 | Oct => 10 | Nov => 11 | Dec => 12
  end%Z.

(** [.dt.quarter] *)
Definition quarter (d : date) : Z := ((month_number (month d) - 1) / 3 + 1)%Z.

(* ================================================================== *)
(** ** Rows *)

(** One row of the DataFrame after the coercion of line 35 and the date
    parsing and [dropna] of lines 38-39. *)
Record ClaimRow := {
  Remittance_Date : date;
  Payer_Name : option string;
  Paid_Amount : Q;
  Resubmission_Paid_Amount_1 : Q;
  Resubmission_Paid_Amount2 : Q;
  Submitted_Amount : Q;
  Resubmitted_Amount_1 : Q;
  Resubmitted_Amount2 : Q;
  Denied_Amount : Q;
  Resubmission_Denied_Amount_Remittance_1 : Q;
  Resubmission_Denied_Amount_Remittance_2 : Q
}.

(** One row of [df] after lines 42-50: the cleaned row with the seven
    columns the script adds. *)
Record Claim := {
  row : ClaimRow;
  Remittance_Year : Z;
  Remittance_Month : string;
  Quarter : Z;
  Total_Submitted_Amount : Q;
  Total_Paid_Amount : Q;
  Total_Denied_Amount : Q;
  Total_Pending_Amount : Q
}.

(* ================================================================== *)
(** ** Series arithmetic and the derived columns (lines 42-50) *)

Module Series.

Definition Series := list Q.

Definition column {A B} (f : A -> B) (df : list A) : list B := map f df.

Fixpoint zip_with {A B C} (f : A -> B -> C) (a : list A) (b : list B) : list C :=
  match a, b with
  | x :: a', y :: b' => f x y :: zip_with f a' b'
  | _, _ => []
  end.

Definition add (a b : Series) : Series := zip_with Qplus a b.
Definition sub (a b : Series) : Series := zip_with Qminus a b.
Definition round (a : Series) (decimals : nat) : Series :=
  map (fun x => Rounding.round x decimals) a.

End Series.

(** Lines 47-50, column by column. *)
Definition Total_Submitted_column (df : list ClaimRow) : Series.Series :=
  Series.round
    (Series.add (Series.add (Series.column Submitted_Amount df)
                            (Series.column Resubmitted_Amount_1 df))
                (Series.column Resubmitted_Amount2 df)) 2.

Definition Total_Paid_column (df : list ClaimRow) : Series.Series :=
  Series.round
    (Series.add (Series.add (Series.column Paid_Amount df)
                            (Series.column Resubmission_Paid_Amount_1 df))
                (Series.column Resubmission_Paid_Amount2 df)) 2.

Definition Total_Denied_column (df : list ClaimRow) : Series.Series :=
  Series.round
    (Series.add
       (Series.add
          (Series.sub (Series.column Denied_Amount df)
                      (Series.column Resubmitted_Amount_1 df))
          (Series.sub (Series.column Resubmission_Denied_Amount_Remittance_1 df)
                      (Series.column Resubmitted_Amount2 df)))
       (Series.column Resubmission_Denied_Amount_Remittance_2 df)) 2.

(** Line 50 reads the two columns assigned on lines 48 and 49. *)
Definition Total_Pending_column (df : list ClaimRow)
    (total_paid total_denied : Series.Series) : Series.Series :=
  Series.round
    (Series.sub (Series.column Submitted_Amount df)
                (Series.add total_paid total_denied)) 2.

(** Assembling the rows of [df] from its columns. *)
Fixpoint assemble (df : list ClaimRow) (yr : list Z) (mo : list string)
    (qu : list Z) (ts tp td tn : Series.Series) : list Claim :=
  match df, yr, mo, qu, ts, tp, td, tn with
  | r :: df', y :: yr', m :: mo', q :: qu', a :: ts', b :: tp', c :: td', d :: tn' =>
      {| row := r; Remittance_Year := y; Remittance_Month := m; Quarter := q;
         Total_Submitted_Amount := a; Total_Paid_Amount := b;
         Total_Denied_Amount := c; Total_Pending_Amount := d |}
      :: assemble df' yr' mo' qu' ts' tp' td' tn'
  | _, _, _, _, _, _, _, _ => []
  end.

(** Lines 42-50. *)
Definition add_derived_columns (df : list ClaimRow) : list Claim :=
  let yr := Series.column (fun r => year (Remittance_Date r)) df in
  let mo := Series.column (fun r => strftime_b (month (Remittance_Date r))) df in
  let qu := Series.column (fun r => quarter (Remittance_Date r)) df in
  let ts := Total_Submitted_column df in
  let tp := Total_Paid_column df in
  let td := Total_Denied_column df in
  let tn := Total_Pending_column df tp td in
  assemble df yr mo qu ts tp td tn.

(** *** The metric deriver as the specification words it: one record in,
    four totals out. *)
Module Deriver.

Definition total_submitted (r : ClaimRow) : Q :=
  round (Submitted_Amount r + Resubmitted_Amount_1 r + Resubmitted_Amount2 r) 2.

Definition total_paid (r : ClaimRow) : Q :=
  round (Paid_Amount r + Resubmission_Paid_Amount_1 r
         + Resubmission_Paid_Amount2 r) 2.

Definition total_denied (r : ClaimRow) : Q :=
  round ((Denied_Amount r - Resubmitted_Amount_1 r)
         + (Resubmission_Denied_Amount_Remittance_1 r - Resubmitted_Amount2 r)
         + Resubmission_Denied_Amount_Remittance_2 r) 2.

Definition total_pending (r : ClaimRow) : Q :=
  round (Submitted_Amount r - (total_paid r + total_denied r)) 2.

Definition derive (r : ClaimRow) : Claim :=
  {| row := r;
     Remittance_Year := year (Remittance_Date r);
     Remittance_Month := strftime_b (month (Remittance_Date r));
     Quarter := quarter (Remittance_Date r);
     Total_Submitted_Amount := total_submitted r;
     Total_Paid_Amount := total_paid r;
     Total_Denied_Amount := total_denied r;
     Total_Pending_Amount := total_pending r |}.

End Deriver.

(* ================================================================== *)
(** ** Lines 47-50 in the arithmetic of the machine

    After line 35 an amount column is an [int64] column when every cell
    of it was read as an integer, and a [float64] column otherwise (a cell
    with decimals, or one that [errors='coerce'] turned into NaN, makes the
    column [float64]).  Arithmetic on
    two [int64] values is done in [int64] and wraps around; as soon as one
    operand is a [float64] the other is converted and the operation is done
    in binary64, to nearest, ties to even.  [round(x, 2)] leaves an [int64]
    as it is and takes a [float64] [x] to [rint(x * 100) / 100].  A value
    of this section carries the type of its column. *)

Module Machine.

Import PrimFloat SpecFloat FloatOps.

Inductive number := Int64 (z : Z) | Float64 (f : float).

Definition int64_modulus : Z := 18446744073709551616.   (* 2^64 *)
Definition int64_half : Z := 9223372036854775808.       (* 2^63 *)

(** The [int64] that an integer result wraps to. *)
Definition wrap (z : Z) : Z :=
  ((z + int64_half) mod int64_modulus - int64_half)%Z.

(** Conversion of an integer to binary64, to nearest, ties to even. *)
Definition float_of_Z (z : Z) : float :=
  SF2Prim (binary_normalize prec emax z 0 false).

Definition to_float (x : number) : float :=
  match x with
  | Int64 z => float_of_Z z
  | Float64 f => f
  end.

Definition add (a b : number) : number :=
  match a, b with
  | Int64 x, Int64 y => Int64 (wrap (x + y))
  | _, _ => Float64 (PrimFloat.add (to_float a) (to_float b))
  end.

Definition sub (a b : number) : number :=
  match a, b with
  | Int64 x, Int64 y => Int64 (wrap (x - y))
  | _, _ => Float64 (PrimFloat.sub (to_float a) (to_float b))
  end.

(** The integer nearest to [m / d], ties to the even one ([0 < d]). *)
Definition nearest (m d : Z) : Z :=
  let q := (m / d)%Z in
  match (2 * (m mod d) ?= d)%Z with
  | Lt => q
  | Gt => (q + 1)%Z
  | Eq => if Z.even q then q else (q + 1)%Z
  end.

(** [rint]: a finite [v] is [(-1)^s * m * 2^e]; with [0 <= e] it is an
    integer already, otherwise it goes to the nearest integer, which keeps
    the sign of [v] when it is zero.  Zeros, infinities and NaN are left
    as they are. *)
Definition rint (v : float) : float :=
  match Prim2SF v with
  | S754_finite s m e =>
      if (0 <=? e)%Z then v
      else
        let k := nearest (Zpos m) (2 ^ (- e)) in
        if (k =? 0)%Z then (if s then neg_zero else zero)
        else float_of_Z (if s then (- k)%Z else k)
  | _ => v
  end.

(** [round(x, decimals)] of numpy. *)
Definition round (x : number) (decimals : nat) : number :=
  match x with
  | Int64 z => Int64 z
  | Float64 f =>
      let p := float_of_Z (10 ^ Z.of_nat decimals) in
      Float64 (PrimFloat.div (rint (PrimFloat.mul f p)) p)
  end.

(** The nine amounts of a cleaned row, each with the type of its column. *)
Record Row := {
  Paid_Amount : number;
  Resubmission_Paid_Amount_1 : number;
  Resubmission_Paid_Amount2 : number;
  Submitted_Amount : number;
  Resubmitted_Amount_1 : number;
  Resubmitted_Amount2 : number;
  Denied_Amount : number;
  Resubmission_Denied_Amount_Remittance_1 : number;
  Resubmission_Denied_Amount_Remittance_2 : number
}.

(** The row with the four columns of lines 47-50. *)
Record Claim := {
  row : Row;
  Total_Submitted_Amount : number;
  Total_Paid_Amount : number;
  Total_Denied_Amount : number;
  Total_Pending_Amount : number
}.

Definition Series := list number.

Definition series_add (a b : Series) : Series := Series.zip_with add a b.
Definition series_sub (a b : Series) : Series := Series.zip_with sub a b.
Definition series_round (a : Series) (decimals : nat) : Series :=
  map (fun x => round x decimals) a.

(** Lines 47-50, column by column. *)
Definition Total_Submitted_column (df : list Row) : Series :=
  series_round
    (series_add (series_add (Series.column Submitted_Amount df)
                            (Series.column Resubmitted_Amount_1 df))
                (Series.column Resubmitted_Amount2 df)) 2.

Definition Total_Paid_column (df : list Row) : Series :=
  series_round
    (series_add (series_add (Series.column Paid_Amount df)
                            (Series.column Resubmission_Paid_Amount_1 df))
                (Series.column Resubmission_Paid_Amount2 df)) 2.

Definition Total_Denied_column (df : list Row) : Series :=
  series_round
    (series_add
       (series_add
          (series_sub (Series.column Denied_Amount df)
                      (Series.column Resubmitted_Amount_1 df))
          (series_sub (Series.column Resubmission_Denied_Amount_Remittance_1 df)
                      (Series.column Resubmitted_Amount2 df)))
       (Series.column Resubmission_Denied_Amount_Remittance_2 df)) 2.

Definition Total_Pending_column (df : list Row)
    (total_paid total_denied : Series) : Series :=
  series_round
    (series_sub (Series.column Submitted_Amount df)
                (series_add total_paid total_denied)) 2.

Fixpoint assemble (df : list Row) (ts tp td tn : Series) : list Claim :=
  match df, ts, tp, td, tn with
  | r :: df', a :: ts', b :: tp', c :: td', d :: tn' =>
      {| row := r;
         Total_Submitted_Amount := a; Total_Paid_Amount := b;
         Total_Denied_Amount := c; Total_Pending_Amount := d |}
      :: assemble df' ts' tp' td' tn'
  | _, _, _, _, _ => []
  end.

Definition add_derived_columns (df : list Row) : list Claim :=
  let ts := Total_Submitted_column df in
  let tp := Total_Paid_column df in
  let td := Total_Denied_column df in
  let tn := Total_Pending_column df tp td in
  assemble df ts tp td tn.

(** The metric deriver as the specification words it, one row in, four
    totals out, in the same arithmetic. *)
Definition total_submitted (r : Row) : number :=
  round (add (add (Submitted_Amount r) (Resubmitted_Amount_1 r))
             (Resubmitted_Amount2 r)) 2.

Definition total_paid (r : Row) : number :=
  round (add (add (Paid_Amount r) (Resubmission_Paid_Amount_1 r))
             (Resubmission_Paid_Amount2 r)) 2.

Definition total_denied (r : Row) : number :=
  round (add (add (sub (Denied_Amount r) (Resubmitted_Amount_1 r))
                  (sub (Resubmission_Denied_Amount_Remittance_1 r)
                       (Resubmitted_Amount2 r)))
             (Resubmission_Denied_Amount_Remittance_2 r)) 2.

Definition total_pending (r : Row) : number :=
  round (sub (Submitted_Amount r) (add (total_paid r) (total_denied r))) 2.

Definition derive (r : Row) : Claim :=
  {| row := r;
     Total_Submitted_Amount := total_submitted r;
     Total_Paid_Amount := total_paid r;
     Total_Denied_Amount := total_denied r;
     Total_Pending_Amount := total_pending r |}.

(** *** Predicates and inputs *)

Definition amounts (r : Row) : list number :=
  [Paid_Amount r; Resubmission_Paid_Amount_1 r; Resubmission_Paid_Amount2 r;
   Submitted_Amount r; Resubmitted_Amount_1 r; Resubmitted_Amount2 r;
   Denied_Amount r; Resubmission_Denied_Amount_Remittance_1 r;
   Resubmission_Denied_Amount_Remittance_2 r].

Definition is_int64 (x : number) : Prop :=
  match x with
  | Int64 _ => True
  | Float64 _ => False
  end.

(** A row of a frame whose nine amount columns are all [int64]. *)
Definition integer_typed (r : Row) : Prop := Forall is_int64 (amounts r).

Definition in_int64 (z : Z) : Prop := (- int64_half <= z < int64_half)%Z.

(** The accounting identity of the specification, in this arithmetic. *)
Definition accounting_identity (c : Claim) : Prop :=
  sub (sub (Total_Submitted_Amount c) (Total_Paid_Amount c))
      (Total_Denied_Amount c)
  = Total_Pending_Amount c.

Definition hundred : float := 100%float.

(** A row of a frame whose nine amount columns are [int64]. *)
Definition int64_row (p rp1 rp2 s r1 r2 d rd1 rd2 : Z) : Row :=
  {| Paid_Amount := Int64 p;
     Resubmission_Paid_Amount_1 := Int64 rp1;
     Resubmission_Paid_Amount2 := Int64 rp2;
     Submitted_Amount := Int64 s;
     Resubmitted_Amount_1 := Int64 r1;
     Resubmitted_Amount2 := Int64 r2;
     Denied_Amount := Int64 d;
     Resubmission_Denied_Amount_Remittance_1 := Int64 rd1;
     Resubmission_Denied_Amount_Remittance_2 := Int64 rd2 |}.

(** Paid, submitted, first resubmission, denied; the other amounts 0. *)
Definition int_row (paid submitted resubmitted denied : Z) : Row :=
  int64_row paid 0 0 submitted resubmitted 0 denied 0 0.

(** The same for [float64] columns. *)
Definition float_row (paid submitted resubmitted denied : float) : Row :=
  {| Paid_Amount := Float64 paid;
     Resubmission_Paid_Amount_1 := Float64 zero;
     Resubmission_Paid_Amount2 := Float64 zero;
     Submitted_Amount := Float64 submitted;
     Resubmitted_Amount_1 := Float64 resubmitted;
     Resubmitted_Amount2 := Float64 zero;
     Denied_Amount := Float64 denied;
     Resubmission_Denied_Amount_Remittance_1 := Float64 zero;
     Resubmission_Denied_Amount_Remittance_2 := Float64 zero |}.

(** Submitted 100, denied 10, the denied 10 resubmitted once. *)
Definition resubmitted_int_row : Row := int_row 0 100 10 10.

#[local] Set Warnings "-inexact-float".

(** Submitted 0.3, paid 0.1, denied 0.2, nothing resubmitted. *)
Definition three_tenths_row : Row :=
  float_row 0.1%float 0.3%float zero 0.2%float.

(** Amounts that round at the second decimal. *)
Definition d1_015 : number := Float64 1.015%float.
Definition d1_01 : number := Float64 1.01%float.
Definition d2_675 : number := Float64 2.675%float.
Definition d2_68 : number := Float64 2.68%float.

#[local] Set Warnings "+inexact-float".

(** Equality modulo [2^64]. *)
Definition congruent (a b : Z) : Prop :=
  (a mod int64_modulus = b mod int64_modulus)%Z.

End Machine.

(* ================================================================== *)
(** ** The uploaded table, validation and cleaning (lines 20-39) *)

(** A cell of the uploaded file: its text, or [None] when it is empty. *)
Definition cell := option string.

Record DataFrame := { columns : list string; rows : list (list cell) }.

Definition required_cols : list string :=
  ["Remittance_Date"; "Payer_Name"; "Paid_Amount"].

Definition amount_cols : list string :=
  ["Paid_Amount"; "Resubmission_Paid_Amount_1"; "Resubmission_Paid_Amount2";
   "Submitted_Amount"; "Resubmitted_Amount_1"; "Resubmitted_Amount2";
   "Denied_Amount"; "Resubmission_Denied_Amount_Remittance_1";
   "Resubmission_Denied_Amount_Remittance_2"].

(** [col in names] *)
Definition mem (col : string) (names : list string) : bool :=
  existsb (String.eqb col) names.

(** [[col for col in wanted if col not in names]] *)
Definition missing_from (names wanted : list string) : list string :=
  filter (fun col => negb (mem col names)) wanted.

(** Line 22. *)
Definition missing_cols (df : DataFrame) : list string :=
  missing_from (columns df) required_cols.

(** *** [str.strip()] on ASCII text: the white space characters are the
    codes 9-13 and 28-32.  Python strips further characters that are not
    ASCII (U+0085, U+00A0, ...); [is_ascii] tells the names on which
    nothing else can be stripped. *)
Definition is_ascii (s : string) : bool :=
  forallb (fun c => (nat_of_ascii c <? 128)%nat) (list_ascii_of_string s).

Definition is_space (c : ascii) : bool :=
  let n := nat_of_ascii c in
  ((9 <=? n)%nat && (n <=? 13)%nat) || ((28 <=? n)%nat && (n <=? 32)%nat).

Fixpoint lstrip (s : string) : string :=
  match s with
  | String c s' => if is_space c then lstrip s' else s
  | EmptyString => EmptyString
  end.

Fixpoint rstrip (s : string) : string :=
  match s with
  | String c s' =>
      match rstrip s' with
      | EmptyString => if is_space c then EmptyString else String c EmptyString
      | t => String c t
      end
  | EmptyString => EmptyString
  end.

Definition strip (s : string) : string := rstrip (lstrip s).

(** Line 28: [df.columns = df.columns.str.strip()] *)
Definition strip_columns (df : DataFrame) : DataFrame :=
  {| columns := map strip (columns df); rows := rows df |}.

(** *** How a run of the script ends *)

Inductive Exception :=
| KeyError (cols : list string)     (* [df[cols]]: labels not in the columns *)
| ValueError (col : string)         (* a label that names several columns *)
| AttributeError (col : string)
| OSError (path : string)
| RuntimeError (what : string).

Inductive outcome (A : Type) :=
| Done (a : A)
| Stopped (missing : list string)   (* lines 24-25: [st.error] then [st.stop()] *)
| Raised (e : Exception).           (* caught on line 221 and reported *)
Arguments Done {A} a.
Arguments Stopped {A} missing.
Arguments Raised {A} e.

Definition bind {A B} (m : outcome A) (k : A -> outcome B) : outcome B :=
  match m with
  | Done a => k a
  | Stopped missing => Stopped missing
  | Raised e => Raised e
  end.

Notation "x <- m ;; k" := (bind m (fun x => k))
  (at level 61, m at next level, right associativity).

(** Position of the first column called [name]. *)
Fixpoint position (name : string) (names : list string) : option nat :=
  match names with
  | [] => None
  | n :: names' =>
      if String.eqb name n then Some O
      else option_map S (position name names')
  end.

Definition occurrences (name : string) (names : list string) : nat :=
  List.length (filter (String.eqb name) names).

(** [df[name]] as one column: the label must name exactly one of the
    columns [names]. *)
Definition single_column (names : list string) (name : string)
    (dup : Exception) : outcome nat :=
  match position name names with
  | None => Raised (KeyError [name])
  | Some i => if (occurrences name names <=? 1)%nat then Done i
              else Raised dup
  end.

(** [df[amount_cols]] read and assigned back (line 35): every label must be
    present, and none may name two columns. *)
Fixpoint amount_positions (names wanted : list string) : outcome (list nat) :=
  match wanted with
  | [] => Done []
  | n :: wanted' =>
      i <- single_column names n (ValueError n) ;;
      l <- amount_positions names wanted' ;;
      Done (i :: l)
  end.

Definition select_amounts (names : list string) : outcome (list nat) :=
  match missing_from names amount_cols with
  | [] => amount_positions names amount_cols
  | absent => Raised (KeyError absent)
  end.

(** Where the columns the script reads stand among the stripped names. *)
Record Layout := {
  amount_indices : list nat;
  date_index : nat;
  payer_index : nat
}.

Definition layout (names : list string) : outcome Layout :=
  iamounts <- select_amounts names ;;
  idate <- single_column names "Remittance_Date" (ValueError "Remittance_Date") ;;
  ipayer <- single_column names "Payer_Name" (AttributeError "Payer_Name") ;;
  Done {| amount_indices := iamounts; date_index := idate; payer_index := ipayer |}.

(** A row read at a column; a short row is padded with empty cells. *)
Definition at_column (r : list cell) (i : nat) : cell := nth i r None.

(** A row after lines 35 and 38: amounts coerced, date parsed or NaT. *)
Record TypedRow := {
  t_date : option date;
  t_payer : cell;
  t_amounts : list Q
}.

Definition amount_at (t : TypedRow) (k : nat) : Q := nth k (t_amounts t) 0.

(** A typed row whose date is [d], as a row of the cleaned frame; the
    amounts stand in the order of [amount_cols]. *)
Definition claim_row (d : date) (t : TypedRow) : ClaimRow :=
  {| Remittance_Date := d;
     Payer_Name := t_payer t;
     Paid_Amount := amount_at t 0;
     Resubmission_Paid_Amount_1 := amount_at t 1;
     Resubmission_Paid_Amount2 := amount_at t 2;
     Submitted_Amount := amount_at t 3;
     Resubmitted_Amount_1 := amount_at t 4;
     Resubmitted_Amount2 := amount_at t 5;
     Denied_Amount := amount_at t 6;
     Resubmission_Denied_Amount_Remittance_1 := amount_at t 7;
     Resubmission_Denied_Amount_Remittance_2 := amount_at t 8 |}.

(** [df.dropna(subset=['Remittance_Date'])] (line 39): the rows whose
    date is NaT go; the others are kept, in order. *)
Fixpoint dropna (df : list TypedRow) : list ClaimRow :=
  match df with
  | [] => []
  | t :: df' =>
      match t_date t with
      | None => dropna df'
      | Some d => claim_row d t :: dropna df'
      end
  end.

(** Lines 20-25: the check runs on the column names as read. *)
Definition validate (df : DataFrame) : outcome DataFrame :=
  match missing_cols df with
  | [] => Done df
  | missing => Stopped missing
  end.

Section Cleaning.

(** [pd.to_numeric] and [pd.to_datetime] on the text of one cell; [None]
    is what [errors='coerce'] turns into NaN or NaT.  [pd.to_datetime]
    parses the cells of a column with the one format it infers from that
    column: [to_datetime] is the parser of the upload at hand, and is not
    the same function for another upload. *)
Variable to_numeric : string -> option Q.
Variable to_datetime : string -> option date.

(** [pd.to_numeric(..., errors='coerce')] on a cell *)
Definition coerce (c : cell) : option Q :=
  match c with
  | Some s => to_numeric s
  | None => None
  end.

(** [.fillna(0)] *)
Definition fillna (fill : Q) (v : option Q) : Q :=
  match v with
  | Some q => q
  | None => fill
  end.

(** Line 35 on one cell. *)
Definition amount (c : cell) : Q := fillna 0 (coerce c).

(** Line 38 on one cell. *)
Definition parse_date (c : cell) : option date :=
  match c with
  | Some s => to_datetime s
  | None => None
  end.

Definition typed_row (l : Layout) (r : list cell) : TypedRow :=
  {| t_date := parse_date (at_column r (date_index l));
     t_payer := at_column r (payer_index l);
     t_amounts := map (fun i => amount (at_column r i)) (amount_indices l) |}.

(** Lines 20-39: validation, then the names are stripped, the amount
    columns coerced, the date parsed and the rows without a date
    dropped. *)
Definition clean (df : DataFrame) : outcome (list ClaimRow) :=
  df <- validate df ;;
  let df := strip_columns df in
  l <- layout (columns df) ;;
  Done (dropna (map (typed_row l) (rows df))).

(** Lines 20-50. *)
Definition prepare (df : DataFrame) : outcome (list Claim) :=
  cleaned <- clean df ;;
  Done (add_derived_columns cleaned).

End Cleaning.

(* ================================================================== *)
(** ** The sidebar filters (lines 56-71) *)

(** A value of a multiselect: the text of an option, a year, or NaN (a
    payer cell left empty). *)
Inductive pyval := PStr (s : string) | PInt (z : Z) | PNaN.

Definition pyval_eqb (a b : pyval) : bool :=
  match a, b with
  | PStr s, PStr t => String.eqb s t
  | PInt x, PInt y => Z.eqb x y
  | PNaN, PNaN => true
  | _, _ => false
  end.

(** The sentinel the script adds in front of both option lists. *)
Definition ALL : pyval := PStr "ALL".

(** [Series.unique()]: the distinct values, in order of first appearance. *)
Fixpoint unique {A} (eqb : A -> A -> bool) (l : list A) : list A :=
  match l with
  | [] => []
  | x :: l' => x :: filter (fun y => negb (eqb x y)) (unique eqb l')
  end.

(** [v in values], and [Series.isin(values)] on one value. *)
Definition isin (v : pyval) (values : list pyval) : bool :=
  existsb (pyval_eqb v) values.

(** Lines 64 and 65 share one shape:
    [present.unique() if "ALL" in selected else [y for y in selected if y != "ALL"]] *)
Definition effective (present selected : list pyval) : list pyval :=
  if isin ALL selected then unique pyval_eqb present
  else filter (fun y => negb (pyval_eqb y ALL)) selected.

Definition year_value (c : Claim) : pyval := PInt (Remittance_Year c).

Definition payer_value (c : Claim) : pyval :=
  match Payer_Name (row c) with
  | Some s => PStr s
  | None => PNaN
  end.

Definition effective_year (df : list Claim) (selected_year : list pyval) :=
  effective (map year_value df) selected_year.

Definition effective_insurance (df : list Claim) (selected_insurance : list pyval) :=
  effective (map payer_value df) selected_insurance.

(** Lines 68-71. *)
Definition filtered_df (df : list Claim)
    (selected_year selected_insurance : list pyval) : list Claim :=
  filter (fun c => isin (year_value c) (effective_year df selected_year)
                   && isin (payer_value c) (effective_insurance df selected_insurance))
         df.

(* ================================================================== *)
(** ** Grouped tables (lines 74-84) *)

(** Stable sort by insertion; among rows that compare equal the script's
    [sort_values] promises no order, and none is claimed below. *)
Fixpoint insert_by {A} (leb : A -> A -> bool) (x : A) (l : list A) : list A :=
  match l with
  | [] => [x]
  | y :: l' => if leb x y then x :: l else y :: insert_by leb x l'
  end.

Definition sort_by {A} (leb : A -> A -> bool) (l : list A) : list A :=
  fold_right (insert_by leb) [] l.

(** [a] may stand before [b]. *)
Definition ordered_by {A} (leb : A -> A -> bool) (a b : A) : Prop :=
  leb a b = true.

Definition string_leb (a b : string) : bool :=
  match String.compare a b with
  | Gt => false
  | _ => true
  end.

(** Group labels: (year, payer) and (year, payer, month). *)
Definition key2 : Type := Z * string.
Definition key3 : Type := key2 * string.

Definition key2_eqb (a b : key2) : bool :=
  Z.eqb (fst a) (fst b) && String.eqb (snd a) (snd b).

Definition key3_eqb (a b : key3) : bool :=
  key2_eqb (fst a) (fst b) && String.eqb (snd a) (snd b).

Definition key2_leb (a b : key2) : bool :=
  if Z.eqb (fst a) (fst b) then string_leb (snd a) (snd b)
  else Z.leb (fst a) (fst b).

Definition key3_leb (a b : key3) : bool :=
  if key2_eqb (fst a) (fst b) then string_leb (snd a) (snd b)
  else key2_leb (fst a) (fst b).

(** The label of a row under [groupby]; a row with an empty payer has none
    and belongs to no group ([dropna=True]). *)
Definition year_payer (c : Claim) : option key2 :=
  match Payer_Name (row c) with
  | Some p => Some (Remittance_Year c, p)
  | None => None
  end.

Definition year_payer_month (c : Claim) : option key3 :=
  match year_payer c with
  | Some k => Some (k, Remittance_Month c)
  | None => None
  end.

(** [Series.sum()], on exact rationals *)
Definition sum (s : list Q) : Q := fold_left Qplus s 0.

Section GroupBy.

Context {K : Type}.
Variable eqb : K -> K -> bool.
Variable leb : K -> K -> bool.
Variable label : Claim -> option K.

Definition labels (df : list Claim) : list K :=
  flat_map (fun c => match label c with Some k => [k] | None => [] end) df.

(** The groups, sorted by label ([sort=True]). *)
Definition group_keys (df : list Claim) : list K :=
  sort_by leb (unique eqb (labels df)).

Definition group (k : K) (df : list Claim) : list Claim :=
  filter (fun c => match label c with
                   | Some k' => eqb k k'
                   | None => false
                   end) df.

(** [df.groupby(labels)[column].sum()] *)
Definition groupby_sum (column : Claim -> Q) (df : list Claim) : list (K * Q) :=
  map (fun k => (k, sum (map column (group k df)))) (group_keys df).

(** [df.groupby(labels).agg(name=(column, 'sum'), ...)] *)
Definition groupby_agg (cols : list (Claim -> Q)) (df : list Claim)
    : list (K * list Q) :=
  map (fun k => (k, map (fun column => sum (map column (group k df))) cols))
      (group_keys df).

End GroupBy.

(** A frame indexed by (year, payer). *)
Record Pivot := {
  index : list key2;
  pcolumns : list string;
  values : list (list Q)
}.

Definition lookup3 (k : key3) (s : list (key3 * Q)) : option Q :=
  option_map snd (find (fun e => key3_eqb k (fst e)) s).

(** [Series.unstack(fill_value=...)]: the last level of the index becomes
    the columns. *)
Definition unstack (fill_value : Q) (s : list (key3 * Q)) : Pivot :=
  let idx := unique key2_eqb (map (fun e => fst (fst e)) s) in
  let cols := sort_by string_leb (unique String.eqb (map (fun e => snd (fst e)) s)) in
  {| index := idx;
     pcolumns := cols;
     values := map (fun yp =>
                 map (fun m => match lookup3 (yp, m) s with
                               | Some v => v
                               | None => fill_value
                               end) cols) idx |}.

(** [DataFrame.reindex(columns=..., fill_value=...)] *)
Definition reindex (new_columns : list string) (fill_value : Q) (p : Pivot) : Pivot :=
  {| index := index p;
     pcolumns := new_columns;
     values := map (fun r =>
                 map (fun c => match position c (pcolumns p) with
                               | Some j => nth j r fill_value
                               | None => fill_value
                               end) new_columns) (values p) |}.

(** A table as displayed and exported: the names of its columns, and per
    row the year, the payer and the numeric cells. *)
Record Table := {
  header : list string;
  body : list (key2 * list Q)
}.

(** [.reset_index()] *)
Definition reset_index (p : Pivot) : Table :=
  {| header := "Remittance_Year" :: "Payer_Name" :: pcolumns p;
     body := combine (index p) (values p) |}.

(** [.sort_values(by='Remittance_Year')] *)
Definition sort_values_by_year (t : Table) : Table :=
  {| header := header t;
     body := sort_by (fun a b => Z.leb (fst (fst a)) (fst (fst b))) (body t) |}.

Definition month_order : list string :=
  ["Jan"; "Feb"; "Mar"; "Apr"; "May"; "Jun";
   "Jul"; "Aug"; "Sep"; "Oct"; "Nov"; "Dec"].

(** Lines 75-76. *)
Definition grouped_paid (filtered : list Claim) : Table :=
  let s := groupby_sum key3_eqb key3_leb year_payer_month Total_Paid_Amount filtered in
  sort_values_by_year (reset_index (reindex month_order 0 (unstack 0 s))).

(** Lines 79-84. *)
Definition summary_table (filtered : list Claim) : Table :=
  let g := groupby_agg key2_eqb key2_leb year_payer
             [Total_Submitted_Amount; Total_Paid_Amount;
              Total_Denied_Amount; Total_Pending_Amount] filtered in
  sort_values_by_year
    {| header := ["Remittance_Year"; "Payer_Name"; "Total_Submitted";
                  "Total_Paid"; "Total_Denied"; "Total_Pending"];
       body := g |}.

(** What the specification asks of a cell of the monthly matrix: the sum of
    [total_paid] over the filtered rows of that year, payer and month. *)
Definition paid_in (y : Z) (p m : string) (filtered : list Claim) : Q :=
  sum (map Total_Paid_Amount
         (filter (fun c => Z.eqb (Remittance_Year c) y
                           && match Payer_Name (row c) with
                              | Some p' => String.eqb p' p
                              | None => false
                              end
                           && String.eqb (Remittance_Month c) m) filtered)).

(** *** Lines 20-84 as one function of the upload and the two selections *)

Record Views := {
  working_set : list Claim;     (* [df] *)
  filtered : list Claim;        (* [filtered_df] *)
  monthly : Table;              (* [grouped_paid] *)
  summary : Table               (* [summary_table] *)
}.

Definition pipeline (to_numeric : string -> option Q)
    (to_datetime : string -> option date) (upload : DataFrame)
    (selected_year selected_insurance : list pyval) : outcome Views :=
  df <- prepare to_numeric to_datetime upload ;;
  let f := filtered_df df selected_year selected_insurance in
  Done {| working_set := df; filtered := f;
          monthly := grouped_paid f; summary := summary_table f |}.

(* ================================================================== *)
(** ** The export (lines 208-219) *)

Module Report.

Definition output_file : string := "Insurance_Claims_Report.xlsx".

Definition sheets : list string :=
  ["Paid Claims Per Month"; "Summary"; "All Claims Raw (Filtered)"].

(** The part of the world the export touches: the files on disk (a path
    and the sheets of the workbook stored there) and the downloads
    offered to the user. *)
Record World := {
  files : list (string * list string);
  offered : list string
}.

(** A failure of the writer: the exception, and what leaving the [with]
    block has stored under the path all the same ([None]: nothing was
    written; [Some partial]: a workbook holding the sheets [partial], as
    when [to_excel] raises and the writer is closed on the way out). *)
Record WriterFailure := {
  raised : Exception;
  saved : option (list string)
}.

(** What the two library calls do in one run: return, or raise. *)
Record Run := {
  writer_raises : option WriterFailure;      (* [pd.ExcelWriter] / [to_excel] *)
  download_button_raises : option Exception  (* [st.download_button] *)
}.

(** A piece of the script: it changes the world and returns or raises. *)
Definition Script (A : Type) : Type := World -> outcome A * World.

Definition ret {A} (a : A) : Script A := fun w => (Done a, w).

(** Sequencing: once a statement has raised, the statements after it do
    not run. *)
Definition seq {A B} (m : Script A) (k : A -> Script B) : Script B :=
  fun w =>
    match m w with
    | (Done a, w') => k a w'
    | (Stopped missing, w') => (Stopped missing, w')
    | (Raised e, w') => (Raised e, w')
    end.

Notation "x <~ m ;; k" := (seq m (fun x => k))
  (at level 61, m at next level, right associativity).
Notation "m >> k" := (seq m (fun _ => k))
  (at level 61, right associativity).

Definition exists_file (path : string) (w : World) : bool :=
  existsb (fun f => String.eqb path (fst f)) (files w).

Definition without (path : string) (fs : list (string * list string)) :=
  filter (fun f => negb (String.eqb path (fst f))) fs.

(** [with pd.ExcelWriter(path) as writer: ... to_excel(writer, sheet) ...] *)
Definition ExcelWriter (run : Run) (path : string) (book : list string)
    : Script unit :=
  fun w =>
    match writer_raises run with
    | Some failure =>
        (Raised (raised failure),
         match saved failure with
         | Some partial => {| files := (path, partial) :: without path (files w);
                              offered := offered w |}
         | None => w
         end)
    | None => (Done tt, {| files := (path, book) :: without path (files w);
                           offered := offered w |})
    end.

(** [open(path, "rb")] *)
Definition open_rb (path : string) : Script string :=
  fun w =>
    if exists_file path w then (Done path, w)
    else (Raised (OSError path), w).

(** [st.download_button(label, file, file_name=...)] *)
Definition download_button (run : Run) (file : string) : Script unit :=
  fun w =>
    match download_button_raises run with
    | Some e => (Raised e, w)
    | None => (Done tt, {| files := files w; offered := file :: offered w |})
    end.

(** [os.remove(path)] *)
Definition os_remove (path : string) : Script unit :=
  fun w =>
    if exists_file path w
    then (Done tt, {| files := without path (files w); offered := offered w |})
    else (Raised (OSError path), w).

(** Lines 209-219. *)
Definition export (run : Run) : Script unit :=
  ExcelWriter run output_file sheets >>
  file <~ open_rb output_file ;;
  download_button run file >>
  os_remove output_file.

End Report.

(* ================================================================== *)
(** ** Two concrete parsers, for running the pipeline on examples

    [decimal] reads an optional sign, digits and an optional fraction;
    [iso_date] reads [YYYY-MM-DD].  Both accept a part of what the pandas
    parsers accept. *)

Module Sample.

Definition digit (c : ascii) : option Z :=
  let n := nat_of_ascii c in
  if ((48 <=? n)%nat && (n <=? 57)%nat)%bool then Some (Z.of_nat (n - 48)) else None.

(** The number written by a string of digits, most significant first. *)
Fixpoint digits_from (acc : Z) (s : string) : option Z :=
  match s with
  | EmptyString => Some acc
  | String c s' =>
      match digit c with
      | Some d => digits_from (10 * acc + d)%Z s'
      | None => None
      end
  end.

Definition number (s : string) : option Z :=
  match s with
  | EmptyString => None
  | _ => digits_from 0%Z s
  end.

(** Splits at the first ["."]. *)
Fixpoint split_point (s : string) : string * option string :=
  match s with
  | EmptyString => (EmptyString, None)
  | String c s' =>
      if Ascii.eqb c "."%char then (EmptyString, Some s')
      else let (a, b) := split_point s' in (String c a, b)
  end.

Definition unsigned_decimal (s : string) : option Q :=
  match split_point s with
  | (whole, None) => option_map inject_Z (number whole)
  | (whole, Some frac) =>
      match number whole, number frac with
      | Some w, Some f =>
          Some (inject_Z w + inject_Z f / pow10 (String.length frac))
      | _, _ => None
      end
  end.

Definition decimal (s : string) : option Q :=
  match s with
  | String "-"%char s' => option_map Qopp (unsigned_decimal s')
  | _ => unsigned_decimal s
  end.

Definition month_of_number (n : Z) : option Month :=
  match n with
  | 1 => Some Jan | 2 => Some Feb | 3 => Some Mar | 4 => Some Apr
  | 5 => Some May | 6 => Some Jun | 7 => Some Jul | 8 => Some Aug
  | 9 => Some Sep | 10 => Some Oct | 11 => Some Nov | 12 => Some Dec
  | _ => None
  end%Z.

Definition leap (y : Z) : bool :=
  ((y mod 4 =? 0) && (negb (y mod 100 =? 0) || (y mod 400 =? 0)))%Z.

Definition days_in (y : Z) (m : Month) : Z :=
  match m with
  | Feb => if leap y then 29 else 28
  | Apr | Jun | Sep | Nov => 30
  | _ => 31
  end%Z.

Definition iso_date (s : string) : option date :=
  match number (substring 0 4 s), number (substring 5 2 s),
        number (substring 8 2 s) with
  | Some y, Some m, Some d =>
      match month_of_number m with
      | Some mo =>
          if (String.eqb (substring 4 1 s) "-" && String.eqb (substring 7 1 s) "-"
              && (String.length s =? 10)%nat
              && (1 <=? d)%Z && (d <=? days_in y mo)%Z)%bool
          then Some {| year := y; month := mo; day := d |}
          else None
      | None => None
      end
  | _, _, _ => None
  end.

Definition clean := clean decimal iso_date.
Definition prepare := prepare decimal iso_date.
Definition pipeline := pipeline decimal iso_date.

End Sample.

(* ================================================================== *)
(** ** Predicates and inputs the statements below use *)

(** The nine input amounts of a cleaned row. *)
Definition amounts (r : ClaimRow) : list Q :=
  [Paid_Amount r; Resubmission_Paid_Amount_1 r; Resubmission_Paid_Amount2 r;
   Submitted_Amount r; Resubmitted_Amount_1 r; Resubmitted_Amount2 r;
   Denied_Amount r; Resubmission_Denied_Amount_Remittance_1 r;
   Resubmission_Denied_Amount_Remittance_2 r].

Definition nonnegative_amounts (r : ClaimRow) : Prop :=
  Forall (fun a => 0 <= a) (amounts r).

(** The accounting identity of the specification, on one row of [df]. *)
Definition accounting_identity (c : Claim) : Prop :=
  Total_Submitted_Amount c - Total_Paid_Amount c - Total_Denied_Amount c
  == Total_Pending_Amount c.

Definition mar_15 : date := {| year := 2021; month := Mar; day := 15 |}.

(** The example of the specification: submitted 100, paid 80, denied 20. *)
Definition acme_row : ClaimRow :=
  {| Remittance_Date := mar_15; Payer_Name := Some "Acme";
     Paid_Amount := 80; Resubmission_Paid_Amount_1 := 0;
     Resubmission_Paid_Amount2 := 0;
     Submitted_Amount := 100; Resubmitted_Amount_1 := 0; Resubmitted_Amount2 := 0;
     Denied_Amount := 20; Resubmission_Denied_Amount_Remittance_1 := 0;
     Resubmission_Denied_Amount_Remittance_2 := 0 |}.

(** Submitted 100, denied 10, the denied 10 resubmitted once. *)
Definition resubmitted_row : ClaimRow :=
  {| Remittance_Date := mar_15; Payer_Name := Some "Acme";
     Paid_Amount := 0; Resubmission_Paid_Amount_1 := 0;
     Resubmission_Paid_Amount2 := 0;
     Submitted_Amount := 100; Resubmitted_Amount_1 := 10; Resubmitted_Amount2 := 0;
     Denied_Amount := 10; Resubmission_Denied_Amount_Remittance_1 := 0;
     Resubmission_Denied_Amount_Remittance_2 := 0 |}.

(** Nothing denied, 10 resubmitted. *)
Definition overresubmitted_row : ClaimRow :=
  {| Remittance_Date := mar_15; Payer_Name := Some "Acme";
     Paid_Amount := 0; Resubmission_Paid_Amount_1 := 0;
     Resubmission_Paid_Amount2 := 0;
     Submitted_Amount := 0; Resubmitted_Amount_1 := 10; Resubmitted_Amount2 := 0;
     Denied_Amount := 0; Resubmission_Denied_Amount_Remittance_1 := 0;
     Resubmission_Denied_Amount_Remittance_2 := 0 |}.

(** Nothing submitted, 10 paid. *)
Definition overpaid_row : ClaimRow :=
  {| Remittance_Date := mar_15; Payer_Name := Some "Acme";
     Paid_Amount := 10; Resubmission_Paid_Amount_1 := 0;
     Resubmission_Paid_Amount2 := 0;
     Submitted_Amount := 0; Resubmitted_Amount_1 := 0; Resubmitted_Amount2 := 0;
     Denied_Amount := 0; Resubmission_Denied_Amount_Remittance_1 := 0;
     Resubmission_Denied_Amount_Remittance_2 := 0 |}.

(** The cell of a raw row under the date column, the header being [names]
    as read. *)
Definition date_cell (names : list string) (r : list cell) : cell :=
  match position "Remittance_Date" (map strip names) with
  | Some i => at_column r i
  | None => None
  end.

(** The cell of a raw row under the [k]-th amount column of [amount_cols]. *)
Definition amount_cell (names : list string) (k : nat) (r : list cell) : cell :=
  match position (nth k amount_cols "") (map strip names) with
  | Some i => at_column r i
  | None => None
  end.

(** *** The parts of the monthly matrix: the labels of the groups of line
    75, their sums, the index and the columns of the pivoted frame, and the
    twelve cells of a row after [reindex]. *)
Definition month_groups (f : list Claim) : list key3 :=
  group_keys key3_eqb key3_leb year_payer_month f.

Definition month_sum (f : list Claim) (k : key3) : Q :=
  sum (map Total_Paid_Amount (group key3_eqb year_payer_month k f)).

Definition matrix_index (f : list Claim) : list key2 :=
  unique key2_eqb (map fst (month_groups f)).

Definition months_present (f : list Claim) : list string :=
  sort_by string_leb (unique String.eqb (map snd (month_groups f))).

Definition matrix_cells (f : list Claim) (yp : key2) : list Q :=
  map (fun c =>
         match position c (months_present f) with
         | Some j =>
             nth j (map (fun m =>
                           match lookup3 (yp, m)
                                   (map (fun k => (k, month_sum f k)) (month_groups f))
                           with
                           | Some v => v
                           | None => 0
                           end) (months_present f)) 0
         | None => 0
         end) month_order.

(** *** Runs of the export *)

Definition empty_world : Report.World :=
  {| Report.files := []; Report.offered := [] |}.

(** Both library calls return. *)
Definition quiet_run : Report.Run :=
  {| Report.writer_raises := None; Report.download_button_raises := None |}.

(** The workbook is written; the download button raises. *)
Definition failing_handoff : Report.Run :=
  {| Report.writer_raises := None;
     Report.download_button_raises := Some (RuntimeError "download_button") |}.

(** *** Uploads *)

Definition full_header : list string :=
  "Remittance_Date" :: "Payer_Name" :: amount_cols.

(** The same header with a blank in front of the date column's name. *)
Definition padded_header : list string :=
  " Remittance_Date" :: "Payer_Name" :: amount_cols.

Definition acme_cells : list cell :=
  [Some "2021-03-15"; Some "Acme"; Some "80"; None; None;
   Some "100"; None; None; Some "20"; None; None].

(** [Paid_Amount] is the text [abc]. *)
Definition abc_cells : list cell :=
  [Some "2021-03-15"; Some "Acme"; Some "abc"; None; None;
   Some "100"; None; None; Some "20"; None; None].

Definition undated_cells : list cell :=
  [Some "not a date"; Some "Acme"; Some "80"; None; None;
   Some "100"; None; None; Some "20"; None; None].

(** Where the columns of [full_header] stand. *)
Definition full_layout : Layout :=
  {| amount_indices := [2; 3; 4; 5; 6; 7; 8; 9; 10]%nat;
     date_index := 0; payer_index := 1 |}.

Definition acme_upload : DataFrame :=
  {| columns := full_header; rows := [acme_cells] |}.

Definition abc_upload : DataFrame :=
  {| columns := full_header; rows := [abc_cells] |}.

Definition undated_upload : DataFrame :=
  {| columns := full_header; rows := [acme_cells; undated_cells] |}.

Definition padded_upload : DataFrame :=
  {| columns := padded_header; rows := [acme_cells] |}.

(* ================================================================== *)
(** ** The option lists of the sidebar (lines 56 and 60) *)

(** [["ALL"] + sorted(df['Remittance_Year'].unique())] *)
Definition year_options (df : list Claim) : list pyval :=
  ALL :: map PInt (sort_by Z.leb (unique Z.eqb (map Remittance_Year df))).

(** [["ALL"] + list(df['Payer_Name'].unique())] *)
Definition insurance_options (df : list Claim) : list pyval :=
  ALL :: unique pyval_eqb (map payer_value df).

(* ================================================================== *)
(** ** The tables behind the charts (lines 94-206)

    The charts are drawn only when the filtered set is not empty; each is
    fed by one grouped table.  The tables are modelled, the drawing is
    not. *)

(** Labels of the chart groupings; a year and a quarter are never empty. *)
Definition by_year (c : Claim) : option Z := Some (Remittance_Year c).

Definition by_payer (c : Claim) : option string := Payer_Name (row c).

Definition by_year_quarter (c : Claim) : option (Z * Z) :=
  Some (Remittance_Year c, Quarter c).

Definition pair_eqb (a b : Z * Z) : bool :=
  Z.eqb (fst a) (fst b) && Z.eqb (snd a) (snd b).

Definition pair_leb (a b : Z * Z) : bool :=
  if Z.eqb (fst a) (fst b) then Z.leb (snd a) (snd b)
  else Z.leb (fst a) (fst b).

(** Line 101. *)
Definition yearly_paid (f : list Claim) : list (Z * Z * Q) :=
  groupby_sum pair_eqb pair_leb by_year_quarter Total_Paid_Amount f.

(** Line 108. *)
Definition insurance_paid (f : list Claim) : list (string * Q) :=
  groupby_sum String.eqb string_leb by_payer Total_Paid_Amount f.

(** Lines 121-124. *)
Definition scatter_data (f : list Claim) : list (string * list Q) :=
  groupby_agg String.eqb string_leb by_payer
    [Total_Submitted_Amount; Total_Paid_Amount] f.

(** Line 143: [insurance_paid] under
    [.sort_values('Total Paid Amount', ascending=False)]. *)
Definition area_data (f : list Claim) : list (string * Q) :=
  sort_by (fun a b => Qle_bool (snd b) (snd a)) (insurance_paid f).

(** Lines 152-155 and 181-184. *)
Definition pie_data (f : list Claim) : list (string * list Q) :=
  groupby_agg String.eqb string_leb by_payer
    [Total_Paid_Amount; Total_Denied_Amount] f.

(** Lines 191-196. *)
Definition stacked_data (f : list Claim) : list (Z * list Q) :=
  groupby_agg Z.eqb Z.leb by_year
    [Total_Submitted_Amount; Total_Paid_Amount;
     Total_Denied_Amount; Total_Pending_Amount] f.

Record Charts := {
  c_yearly_paid : list (Z * Z * Q);
  c_insurance_paid : list (string * Q);
  c_scatter_data : list (string * list Q);
  c_area_data : list (string * Q);
  c_pie_data : list (string * list Q);
  c_stacked_data : list (Z * list Q)
}.

(** Lines 94-96: a warning, and no chart, on the empty filtered set. *)
Definition charts (f : list Claim) : option Charts :=
  match f with
  | [] => None
  | _ =>
      Some {| c_yearly_paid := yearly_paid f;
              c_insurance_paid := insurance_paid f;
              c_scatter_data := scatter_data f;
              c_area_data := area_data f;
              c_pie_data := pie_data f;
              c_stacked_data := stacked_data f |}
  end.

(* ================================================================== *)
(** ** Further predicates and inputs *)

(** The four total columns, in the order of the summary table. *)
Definition total_columns : list (Claim -> Q) :=
  [Total_Submitted_Amount; Total_Paid_Amount;
   Total_Denied_Amount; Total_Pending_Amount].

(** The sum of a column over the filtered rows of one year and payer. *)
Definition total_in (column : Claim -> Q) (y : Z) (p : string)
    (filtered : list Claim) : Q :=
  sum (map column
         (filter (fun c => Z.eqb (Remittance_Year c) y
                           && match Payer_Name (row c) with
                              | Some p' => String.eqb p' p
                              | None => false
                              end) filtered)).

(** Table rows in ascending order of year. *)
Definition ascending_by_year {C} (t : list (key2 * C)) : Prop :=
  StronglySorted (fun a b => (fst (fst a) <= fst (fst b))%Z) t.

(** The dates cleaning keeps, read off the raw rows in order. *)
Definition parsed_dates (to_datetime : string -> option date)
    (names : list string) (raw_rows : list (list cell)) : list date :=
  flat_map (fun r => match parse_date to_datetime (date_cell names r) with
                     | Some d => [d]
                     | None => []
                     end) raw_rows.

(** The row [c] carries the parsed date of a raw row of the upload. *)
Definition parsed_from (to_datetime : string -> option date) (df : DataFrame)
    (c : Claim) : Prop :=
  exists raw, In raw (rows df)
              /\ parse_date to_datetime (date_cell (columns df) raw)
                 = Some (Remittance_Date (row c)).

(** A header with the three required columns only. *)
Definition required_only_upload : DataFrame :=
  {| columns := required_cols;
     rows := [[Some "2021-03-15"; Some "Acme"; Some "80"]] |}.

(** Two payers, one row without payer, two years. *)
Definition mixed_claims : list Claim :=
  map Deriver.derive
    [acme_row;
     {| Remittance_Date := {| year := 2020; month := Dec; day := 1 |};
        Payer_Name := Some "Zenith";
        Paid_Amount := 30; Resubmission_Paid_Amount_1 := 0;
        Resubmission_Paid_Amount2 := 0;
        Submitted_Amount := 50; Resubmitted_Amount_1 := 0;
        Resubmitted_Amount2 := 0;
        Denied_Amount := 20; Resubmission_Denied_Amount_Remittance_1 := 0;
        Resubmission_Denied_Amount_Remittance_2 := 0 |};
     {| Remittance_Date := mar_15; Payer_Name := None;
        Paid_Amount := 5; Resubmission_Paid_Amount_1 := 0;
        Resubmission_Paid_Amount2 := 0;
        Submitted_Amount := 5; Resubmitted_Amount_1 := 0;
        Resubmitted_Amount2 := 0;
        Denied_Amount := 0; Resubmission_Denied_Amount_Remittance_1 := 0;
        Resubmission_Denied_Amount_Remittance_2 := 0 |}].

(** A disk that already holds a report and another file. *)
Definition used_world : Report.World :=
  {| Report.files := [("notes.txt", []); ("Insurance_Claims_Report.xlsx", ["Old"])];
     Report.offered := [] |}.

(** [to_excel] raises on the second sheet; the writer, closed on leaving
    the [with] block, has saved the first. *)
Definition failing_writer : Report.Run :=
  {| Report.writer_raises :=
       Some {| Report.raised := ValueError "Summary";
               Report.saved := Some ["Paid Claims Per Month"] |};
     Report.download_button_raises := None |}.

(* ================================================================== *)
(** * Properties *)

(** ** The derived columns *)

Lemma add_derived_columns_cons r df :
  add_derived_columns (r :: df) = Deriver.derive r :: add_derived_columns df.
Proof. reflexivity. Qed.

(** The column-wise script computes, row by row, the deriver of the
    specification. *)
Lemma add_derived_columns_map df :
  add_derived_columns df = map Deriver.derive df.
Proof.
  induction df as [| r df IH]; [reflexivity |].
  rewrite add_derived_columns_cons, IH. reflexivity.
Qed.

Lemma in_add_derived_columns c df :
  In c (add_derived_columns df) <-> exists r, In r df /\ c = Deriver.derive r.
Proof.
  rewrite add_derived_columns_map, in_map_iff.
  split; intros [r [H1 H2]]; exists r; auto.
Qed.

(** The example of the specification: submitted 100, paid 80, denied 20. *)
Example acme_totals :
  let c := Deriver.derive acme_row in
  Total_Submitted_Amount c == 100 /\ Total_Paid_Amount c == 80
  /\ Total_Denied_Amount c == 20 /\ Total_Pending_Amount c == 0
  /\ Quarter c = 1%Z /\ Remittance_Month c = "Mar".
Proof. vm_compute. repeat split; congruence. Qed.


(** C10. Non-negative inputs do not make the totals non-negative: a row
    whose resubmitted_amount_1 exceeds its denied_amount, the other denial
    fields being 0, has a negative total_denied, and a row paid more than was
    submitted has a negative total_pending. *)
Theorem C10_totals_may_be_negative :
  (exists c, In c (add_derived_columns [overresubmitted_row])
             /\ nonnegative_amounts (row c)
             /\ Denied_Amount (row c) < Resubmitted_Amount_1 (row c)
             /\ Resubmission_Denied_Amount_Remittance_1 (row c) == 0
             /\ Resubmission_Denied_Amount_Remittance_2 (row c) == 0
             /\ Total_Denied_Amount c < 0)
  /\ (exists c, In c (add_derived_columns [overpaid_row])
                /\ nonnegative_amounts (row c)
                /\ Total_Pending_Amount c < 0).
Proof.
  split.
  - exists (Deriver.derive overresubmitted_row). split; [left; reflexivity |].
    split. { repeat constructor; vm_compute; congruence. }
    vm_compute. repeat split; congruence.
  - exists (Deriver.derive overpaid_row). split; [left; reflexivity |].
    split. { repeat constructor; vm_compute; congruence. }
    vm_compute. repeat split; congruence.
Qed.

(** ** Lines 47-50 in the arithmetic of the machine *)

Section MachineArithmetic.

Import Machine.

(** *** [int64]: wrapping is arithmetic modulo [2^64] *)

Lemma wrap_range z : in_int64 (wrap z).
Proof.
  unfold in_int64, wrap, int64_half, int64_modulus.
  pose proof (Z.mod_pos_bound (z + 9223372036854775808) 18446744073709551616).
  lia.
Qed.

Lemma wrap_small z : in_int64 z -> wrap z = z.
Proof.
  unfold in_int64, wrap, int64_half, int64_modulus. intros H.
  rewrite Z.mod_small; lia.
Qed.

(** Two integers are congruent when they differ by a multiple of [2^64]. *)
#[local] Instance congruent_equivalence : Equivalence congruent.
Proof.
  unfold congruent. split.
  - intros a. reflexivity.
  - intros a b E. symmetry. exact E.
  - intros a b c E1 E2. congruence.
Qed.

#[local] Instance add_congruent :
  Proper (congruent ==> congruent ==> congruent) Z.add.
Proof.
  unfold congruent. intros a a' Ea b b' Eb.
  rewrite (Z.add_mod a), (Z.add_mod a') by (unfold int64_modulus; lia).
  congruence.
Qed.

#[local] Instance sub_congruent :
  Proper (congruent ==> congruent ==> congruent) Z.sub.
Proof.
  unfold congruent. intros a a' Ea b b' Eb.
  rewrite (Zminus_mod a), (Zminus_mod a'). congruence.
Qed.

Lemma wrap_congruent a : congruent (wrap a) a.
Proof.
  unfold congruent, wrap.
  rewrite Zminus_mod_idemp_l. f_equal. ring.
Qed.

#[local] Instance wrap_proper : Proper (congruent ==> eq) wrap.
Proof.
  unfold congruent, wrap. intros a b E.
  rewrite <- (Zplus_mod_idemp_l a), E, Zplus_mod_idemp_l. reflexivity.
Qed.

(** Wrapping at every step is wrapping once at the end. *)
Ltac wrap_once :=
  apply wrap_proper; repeat setoid_rewrite wrap_congruent;
  unfold congruent; f_equal; lia.

Lemma congruent_iff a b :
  congruent a b <-> ((a - b) mod int64_modulus = 0)%Z.
Proof.
  unfold congruent, int64_modulus. split; intros H.
  - rewrite Zminus_mod, H, Z.sub_diag. reflexivity.
  - replace a with ((a - b) + b)%Z at 1 by ring.
    rewrite Zplus_mod, H, Z.add_0_l, Z.mod_mod; lia.
Qed.

Lemma wrap_eq_iff a b : wrap a = wrap b <-> congruent a b.
Proof.
  split; intros H.
  - rewrite <- (wrap_congruent a), <- (wrap_congruent b), H. reflexivity.
  - apply wrap_proper. exact H.
Qed.

(** *** The columns of the script are the deriver, row by row *)

Lemma machine_add_derived_columns_cons r df :
  add_derived_columns (r :: df) = derive r :: add_derived_columns df.
Proof. reflexivity. Qed.

Lemma machine_add_derived_columns_map df : add_derived_columns df = map derive df.
Proof.
  induction df as [| r df IH]; [reflexivity |].
  rewrite machine_add_derived_columns_cons, IH. reflexivity.
Qed.

Lemma machine_in_add_derived_columns c df :
  In c (add_derived_columns df) <-> exists r, In r df /\ c = derive r.
Proof.
  rewrite machine_add_derived_columns_map, in_map_iff.
  split; intros [r [H1 H2]]; exists r; auto.
Qed.

(** *** Rounding to the nearest integer *)

Lemma nearest_spec m d :
  (0 < d)%Z ->
  (2 * Z.abs (nearest m d * d - m) <= d)%Z
  /\ ((2 * Z.abs (nearest m d * d - m) = d)%Z -> Z.even (nearest m d) = true).
Proof.
  intros Hd. unfold nearest.
  pose proof (Z.div_mod m d ltac:(lia)) as E.
  pose proof (Z.mod_pos_bound m d Hd) as B.
  set (q := (m / d)%Z) in *. set (r := (m mod d)%Z) in *.
  destruct (2 * r ?= d)%Z eqn:C.
  - apply Z.compare_eq in C.
    destruct (Z.even q) eqn:Ev.
    + split; [nia | intros _; exact Ev].
    + split; [nia |]. intros _.
      rewrite Z.even_add, Ev. reflexivity.
  - rewrite Z.compare_lt_iff in C. split; nia.
  - rewrite Z.compare_gt_iff in C. split; nia.
Qed.

Lemma rint_finite v s m e :
  FloatOps.Prim2SF v = SpecFloat.S754_finite s m e ->
  ((0 <= e)%Z -> rint v = v)
  /\ ((e < 0)%Z ->
      exists k : Z,
        (2 * Z.abs (k * 2 ^ (- e) - Zpos m) <= 2 ^ (- e))%Z
        /\ ((2 * Z.abs (k * 2 ^ (- e) - Zpos m) = 2 ^ (- e))%Z -> Z.even k = true)
        /\ rint v = if (k =? 0)%Z
                    then (if s then PrimFloat.neg_zero else PrimFloat.zero)
                    else float_of_Z (if s then (- k)%Z else k)).
Proof.
  intros H. unfold rint. rewrite H. split.
  - intros He. apply Z.leb_le in He. rewrite He. reflexivity.
  - intros He. assert (E : (0 <=? e)%Z = false) by (apply Z.leb_gt; exact He).
    rewrite E. exists (nearest (Zpos m) (2 ^ (- e))).
    assert (Hd : (0 < 2 ^ (- e))%Z) by (apply Z.pow_pos_nonneg; lia).
    destruct (nearest_spec (Zpos m) _ Hd) as [H1 H2].
    split; [exact H1 |]. split; [exact H2 | reflexivity].
Qed.

Lemma rint_not_finite v :
  match FloatOps.Prim2SF v with
  | SpecFloat.S754_finite _ _ _ => True
  | _ => rint v = v
  end.
Proof. unfold rint. destruct (FloatOps.Prim2SF v); auto. Qed.

Lemma integer_typed_row r :
  integer_typed r ->
  exists p rp1 rp2 s r1 r2 d rd1 rd2,
    r = int64_row p rp1 rp2 s r1 r2 d rd1 rd2.
Proof.
  destruct r as [a1 a2 a3 a4 a5 a6 a7 a8 a9].
  unfold integer_typed, amounts. cbn. intros H.
  repeat match goal with
         | H : Forall _ (_ :: _) |- _ => inversion H; clear H; subst
         end.
  destruct a1, a2, a3, a4, a5, a6, a7, a8, a9;
    cbn in *; try contradiction.
  do 9 eexists. reflexivity.
Qed.

Lemma derive_int64_row p rp1 rp2 s r1 r2 d rd1 rd2 :
  derive (int64_row p rp1 rp2 s r1 r2 d rd1 rd2)
  = {| row := int64_row p rp1 rp2 s r1 r2 d rd1 rd2;
       Total_Submitted_Amount := Int64 (wrap (s + r1 + r2));
       Total_Paid_Amount := Int64 (wrap (p + rp1 + rp2));
       Total_Denied_Amount := Int64 (wrap ((d - r1) + (rd1 - r2) + rd2));
       Total_Pending_Amount :=
         Int64 (wrap (s - ((p + rp1 + rp2) + ((d - r1) + (rd1 - r2) + rd2)))) |}.
Proof.
  unfold derive, total_pending, total_submitted, total_paid, total_denied.
  cbn [int64_row Paid_Amount Resubmission_Paid_Amount_1 Resubmission_Paid_Amount2
       Submitted_Amount Resubmitted_Amount_1 Resubmitted_Amount2 Denied_Amount
       Resubmission_Denied_Amount_Remittance_1
       Resubmission_Denied_Amount_Remittance_2 add sub round].
  f_equal; f_equal; wrap_once.
Qed.


(** What the rounding of line 47 does to two decimals that are not
    binary64 values: 1.015 goes to 1.01 and 2.675 to 2.68; an integer column
    is left alone. *)
Example round_examples :
  round d1_015 2 = d1_01 /\ round d2_675 2 = d2_68
  /\ round (Int64 7) 2 = Int64 7
  /\ add (Int64 9223372036854775807) (Int64 1) = Int64 (-9223372036854775808).
Proof. repeat split; vm_compute; reflexivity. Qed.

(** A row of [int64] columns balances once the resubmitted amounts are
    added to the pending one. *)
Lemma int64_balance p rp1 rp2 s r1 r2 d rd1 rd2 :
  let c := derive (int64_row p rp1 rp2 s r1 r2 d rd1 rd2) in
  sub (sub (Total_Submitted_Amount c) (Total_Paid_Amount c))
      (Total_Denied_Amount c)
  = add (add (Total_Pending_Amount c) (Int64 r1)) (Int64 r2)
  /\ (accounting_identity c <-> add (Int64 r1) (Int64 r2) = Int64 0).
Proof.
  intros c. unfold c, accounting_identity. rewrite derive_int64_row.
  cbn [row Total_Submitted_Amount Total_Paid_Amount Total_Denied_Amount
       Total_Pending_Amount add sub].
  split.
  - f_equal. wrap_once.
  - split; intros H.
    + injection H as H. apply wrap_eq_iff in H.
      repeat setoid_rewrite wrap_congruent in H. apply congruent_iff in H.
      f_equal. change 0%Z with (wrap 0). apply wrap_eq_iff, congruent_iff.
      rewrite <- H. f_equal. lia.
    + injection H as H. change 0%Z with (wrap 0) in H.
      apply wrap_eq_iff, congruent_iff in H.
      f_equal. apply wrap_eq_iff.
      repeat setoid_rewrite wrap_congruent. apply congruent_iff.
      rewrite <- H. f_equal. lia.
Qed.



End MachineArithmetic.

(** ** Validation *)

Lemma mem_In c names : mem c names = true <-> In c names.
Proof.
  unfold mem. rewrite existsb_exists. split.
  - intros [x [Hx E]]. apply String.eqb_eq in E. subst. exact Hx.
  - intros H. exists c. split; [exact H | apply String.eqb_refl].
Qed.

Lemma in_missing_from c names wanted :
  In c (missing_from names wanted) <-> In c wanted /\ ~ In c names.
Proof.
  unfold missing_from. rewrite filter_In, negb_true_iff.
  pose proof (mem_In c names) as M.
  destruct (mem c names).
  - split; intros [H1 H2]; [discriminate | exfalso; apply H2, M; reflexivity].
  - split; intros [H1 H2]; split; auto.
    intros H. apply M in H. discriminate.
Qed.

(** The script stops exactly when a required name is not among the names
    as read, and then names the absent ones, in the order of
    [required_cols]; nothing else is computed. *)
Lemma validate_stops to_numeric to_datetime df sy si :
  missing_cols df <> [] ->
  validate df = Stopped (missing_cols df)
  /\ pipeline to_numeric to_datetime df sy si = Stopped (missing_cols df).
Proof.
  intros H. unfold pipeline, prepare, clean, validate.
  destruct (missing_cols df); [congruence | split; reflexivity].
Qed.

Lemma validate_passes df : missing_cols df = [] -> validate df = Done df.
Proof. intros H. unfold validate. rewrite H. reflexivity. Qed.

(** C3. The presence check of line 22 reads the column names before line 28
    strips them.  An upload whose date column is headed [" Remittance_Date"]
    has all three required columns once the names are stripped, and the
    stripped upload runs through; the script nevertheless stops and reports
    [Remittance_Date] as missing. *)
Theorem C3_validation_reads_unstripped_names :
  missing_cols (strip_columns padded_upload) = []
  /\ (exists v, Sample.pipeline (strip_columns padded_upload) [ALL] [ALL] = Done v)
  /\ validate padded_upload = Stopped ["Remittance_Date"]
  /\ Sample.pipeline padded_upload [ALL] [ALL] = Stopped ["Remittance_Date"].
Proof.
  split; [reflexivity |]. split; [eexists; vm_compute; reflexivity |].
  split; reflexivity.
Qed.

(** ** Filters *)

Lemma pyval_eqb_eq a b : pyval_eqb a b = true <-> a = b.
Proof.
  destruct a, b; simpl; try (split; congruence).
  - rewrite String.eqb_eq. split; congruence.
  - rewrite Z.eqb_eq. split; congruence.
Qed.

Lemma isin_In v l : isin v l = true <-> In v l.
Proof.
  unfold isin. rewrite existsb_exists. split.
  - intros [x [Hx E]]. apply pyval_eqb_eq in E. subst. exact Hx.
  - intros H. exists v. split; [exact H | apply pyval_eqb_eq; reflexivity].
Qed.

Section Unique.

Context {A : Type} (eqb : A -> A -> bool).
Hypothesis eqb_eq : forall a b, eqb a b = true <-> a = b.

Lemma in_unique x l : In x (unique eqb l) <-> In x l.
Proof.
  induction l as [| a l IH]; simpl; [tauto |].
  rewrite filter_In, IH, negb_true_iff.
  destruct (eqb a x) eqn:E.
  - apply eqb_eq in E. intuition congruence.
  - assert (a <> x) by (intros ->; rewrite (proj2 (eqb_eq x x) eq_refl) in E; discriminate).
    intuition congruence.
Qed.

Lemma NoDup_unique l : NoDup (unique eqb l).
Proof.
  induction l as [| a l IH]; simpl; constructor.
  - rewrite filter_In, negb_true_iff.
    rewrite (proj2 (eqb_eq a a) eq_refl). intros [_ H]. discriminate.
  - apply NoDup_filter. exact IH.
Qed.

End Unique.

Lemma filter_not_ALL selected :
  ~ In ALL selected ->
  filter (fun y => negb (pyval_eqb y ALL)) selected = selected.
Proof.
  induction selected as [| y l IH]; simpl; intros H; [reflexivity |].
  destruct (pyval_eqb y ALL) eqn:E.
  - apply pyval_eqb_eq in E. subst. tauto.
  - simpl. rewrite IH; tauto.
Qed.

(** C4. The resolver of lines 64-65, for a column whose values are
    [present] and a selection [selected]: with the sentinel selected the
    effective list is the distinct values of the column, whatever else is
    selected; without it the effective list is the selection itself; the
    selections ["ALL", 2021] and ["ALL"] resolve alike; and a row passes the
    filter exactly when its year is in the resolved years and its payer in
    the resolved payers, each resolved from its own selection. *)
Theorem C4_filter_resolver (present selected : list pyval) :
  (In ALL selected ->
     effective present selected = unique pyval_eqb present
     /\ NoDup (effective present selected)
     /\ (forall v, In v (effective present selected) <-> In v present))
  /\ (~ In ALL selected -> effective present selected = selected)
  /\ effective present [ALL; PInt 2021] = effective present [ALL]
  /\ (forall df selected_insurance c,
        In c (filtered_df df selected selected_insurance)
        <-> In c df
            /\ In (year_value c) (effective (map year_value df) selected)
            /\ In (payer_value c) (effective (map payer_value df) selected_insurance)).
Proof.
  split; [| split; [| split]].
  - intros H. apply isin_In in H. unfold effective. rewrite H.
    split; [reflexivity |]. split.
    + apply NoDup_unique, pyval_eqb_eq.
    + intros v. apply in_unique, pyval_eqb_eq.
  - intros H. unfold effective.
    destruct (isin ALL selected) eqn:E.
    + apply isin_In in E. tauto.
    + apply filter_not_ALL. exact H.
  - reflexivity.
  - intros df si c. unfold filtered_df, effective_year, effective_insurance.
    rewrite filter_In, andb_true_iff, !isin_In. tauto.
Qed.

(** Years 2020, 2021, 2020 in the column: ["ALL", 2021] resolves to 2020
    and 2021, [2021] to 2021. *)
Lemma C4_filter_resolver_witness :
  effective [PInt 2020; PInt 2021; PInt 2020] [ALL; PInt 2021]
    = [PInt 2020; PInt 2021]
  /\ effective [PInt 2020; PInt 2021; PInt 2020] [PInt 2021] = [PInt 2021].
Proof.
  split.
  - refine (proj1 (proj1 (C4_filter_resolver _ [ALL; PInt 2021]) _)).
    left; reflexivity.
  - refine (proj1 (proj2 (C4_filter_resolver _ [PInt 2021])) _).
    intros [H | []]. discriminate H.
Defined.

(** ** Cleaning *)

Lemma single_column_position names name dup i :
  single_column names name dup = Done i -> position name names = Some i.
Proof.
  unfold single_column. destruct (position name names); [| discriminate].
  destruct (occurrences name names <=? 1)%nat; [| discriminate].
  congruence.
Qed.

Lemma amount_positions_nth names wanted l :
  amount_positions names wanted = Done l ->
  List.length l = List.length wanted
  /\ forall k, (k < List.length wanted)%nat ->
       position (nth k wanted "") names = Some (nth k l O).
Proof.
  revert l. induction wanted as [| w wanted IH]; simpl; intros l H.
  - inversion H. split; [reflexivity | intros k Hk; lia].
  - destruct (single_column names w (ValueError w)) as [i | |] eqn:E;
      simpl in H; try discriminate.
    destruct (amount_positions names wanted) as [l' | |]; simpl in H;
      try discriminate.
    inversion H; subst. destruct (IH l' eq_refl) as [Hl Hn].
    split; [simpl; congruence |].
    intros [| k] Hk; simpl.
    + eapply single_column_position; eassumption.
    + apply Hn. lia.
Qed.

Lemma layout_positions names l :
  layout names = Done l ->
  position "Remittance_Date" names = Some (date_index l)
  /\ List.length (amount_indices l) = 9%nat
  /\ forall k, (k < 9)%nat ->
       position (nth k amount_cols "") names = Some (nth k (amount_indices l) O).
Proof.
  unfold layout, select_amounts. intros H.
  destruct (missing_from names amount_cols); [| discriminate].
  destruct (amount_positions names amount_cols) as [ia | |] eqn:EA;
    simpl in H; try discriminate.
  destruct (single_column names "Remittance_Date" _) as [idate | |] eqn:ED;
    simpl in H; try discriminate.
  destruct (single_column names "Payer_Name" _) as [ipayer | |] eqn:EP;
    simpl in H; try discriminate.
  inversion H; subst; simpl.
  apply single_column_position in ED.
  apply amount_positions_nth in EA. destruct EA as [EL EN].
  split; [exact ED |]. split; [exact EL | exact EN].
Qed.

Lemma clean_rows tn td names rs :
  clean tn td {| columns := names; rows := rs |}
  = match missing_from names required_cols with
    | [] => l <- layout (map strip names) ;;
            Done (dropna (map (typed_row tn td l) rs))
    | missing => Stopped missing
    end.
Proof.
  unfold clean, validate, missing_cols. cbn [columns].
  destruct (missing_from names required_cols); reflexivity.
Qed.

Lemma in_dropna r l :
  In r (dropna l) <-> exists t d, In t l /\ t_date t = Some d /\ r = claim_row d t.
Proof.
  induction l as [| t l IH]; simpl.
  - split; [tauto | intros [t [d [[] _]]]].
  - destruct (t_date t) as [d |] eqn:E; simpl; rewrite IH; split.
    + intros [<- | [t' [d' [H1 H2]]]]; [exists t, d | exists t', d']; tauto.
    + intros [t' [d' [[<- | H1] [H2 H3]]]].
      * left. congruence.
      * right. exists t', d'. tauto.
    + intros [t' [d' [H1 H2]]]. exists t', d'. tauto.
    + intros [t' [d' [[<- | H1] [H2 H3]]]]; [congruence |].
      exists t', d'. tauto.
Qed.

Lemma unparseable_amount_is_zero to_numeric c :
  coerce to_numeric c = None -> amount to_numeric c = 0.
Proof. unfold amount. intros ->. reflexivity. Qed.

Lemma amounts_claim_row d t k :
  (k < 9)%nat -> nth k (amounts (claim_row d t)) 1 = amount_at t k.
Proof.
  intros H. do 9 (destruct k as [| k]; [reflexivity |]). lia.
Qed.

Lemma typed_row_amount_at tn td l k raw :
  (k < List.length (amount_indices l))%nat ->
  amount_at (typed_row tn td l raw) k
  = amount tn (at_column raw (nth k (amount_indices l) O)).
Proof.
  intros H. unfold amount_at, typed_row. cbn [t_amounts].
  rewrite (nth_indep _ 0 (amount tn (at_column raw O)))
    by (rewrite length_map; exact H).
  apply (map_nth (fun i => amount tn (at_column raw i))).
Qed.

(** C8. When the header is accepted ([l] being where its columns stand), a
    cell of any of the nine amount columns that does not parse as a number
    (or is empty) is read as 0; cleaning returns normally, and if the row's
    date parses the row is in the cleaned set, with that amount 0. *)
Theorem C8_unparseable_amount_becomes_zero
    (to_numeric : string -> option Q) (to_datetime : string -> option date)
    (df : DataFrame) (l : Layout) (raw : list cell) (k : nat) (d : date) :
  missing_cols df = [] ->
  layout (map strip (columns df)) = Done l ->
  In raw (rows df) ->
  (k < 9)%nat ->
  coerce to_numeric (amount_cell (columns df) k raw) = None ->
  parse_date to_datetime (date_cell (columns df) raw) = Some d ->
  let r := claim_row d (typed_row to_numeric to_datetime l raw) in
  amount to_numeric (amount_cell (columns df) k raw) = 0
  /\ nth k (amounts r) 1 = 0
  /\ Remittance_Date r = d
  /\ exists cleaned,
       clean to_numeric to_datetime df = Done cleaned /\ In r cleaned.
Proof.
  intros Hreq Hl Hraw Hk Hnum Hdate r.
  split; [apply unparseable_amount_is_zero; exact Hnum |].
  destruct df as [names rs]. cbn [columns rows] in *.
  destruct (layout_positions _ _ Hl) as [EP [EL EN]].
  split; [| split; [reflexivity |]].
  - unfold r. rewrite amounts_claim_row by exact Hk.
    rewrite typed_row_amount_at by (rewrite EL; exact Hk).
    apply unparseable_amount_is_zero.
    unfold amount_cell in Hnum. rewrite (EN k Hk) in Hnum. exact Hnum.
  - exists (dropna (map (typed_row to_numeric to_datetime l) rs)). split.
    + rewrite clean_rows. unfold missing_cols in Hreq. cbn [columns] in Hreq.
      rewrite Hreq, Hl. reflexivity.
    + apply in_dropna. exists (typed_row to_numeric to_datetime l raw), d.
      split; [apply in_map; exact Hraw |]. split; [| reflexivity].
      cbn [typed_row t_date]. unfold date_cell in Hdate.
      rewrite EP in Hdate. exact Hdate.
Qed.

(** The example of the specification: [Paid_Amount] is the text [abc]. *)
Lemma C8_unparseable_amount_becomes_zero_witness :
  let r := claim_row mar_15 (typed_row Sample.decimal Sample.iso_date
                               full_layout abc_cells) in
  amount Sample.decimal (Some "abc") = 0
  /\ Paid_Amount r = 0
  /\ Remittance_Date r = mar_15
  /\ exists cleaned, Sample.clean abc_upload = Done cleaned /\ In r cleaned.
Proof.
  refine (C8_unparseable_amount_becomes_zero Sample.decimal Sample.iso_date
            abc_upload full_layout abc_cells 0 mar_15
            eq_refl eq_refl _ _ eq_refl eq_refl).
  - left. reflexivity.
  - repeat constructor.
Defined.

(** ** Sorting *)

Section Sorting.

Context {A : Type} (leb : A -> A -> bool).

Lemma insert_by_perm x l : Permutation (insert_by leb x l) (x :: l).
Proof.
  induction l as [| y l IH]; simpl; [reflexivity |].
  destruct (leb x y); [reflexivity |].
  rewrite IH. apply perm_swap.
Qed.

Lemma sort_by_perm l : Permutation (sort_by leb l) l.
Proof.
  induction l as [| x l IH]; simpl; [reflexivity |].
  rewrite insert_by_perm. constructor. exact IH.
Qed.

Lemma in_sort_by x l : In x (sort_by leb l) <-> In x l.
Proof.
  split; apply Permutation_in; [| symmetry]; apply sort_by_perm.
Qed.

Hypothesis leb_total : forall a b, leb a b = true \/ leb b a = true.

Let R := ordered_by leb.

Lemma insert_by_sorted x l : Sorted R l -> Sorted R (insert_by leb x l).
Proof.
  induction l as [| y l IH]; simpl; intros HS.
  - repeat constructor.
  - destruct (leb x y) eqn:E.
    + constructor; [exact HS | constructor; exact E].
    + inversion HS as [| ? ? HS' Hd]; subst.
      constructor; [apply IH; exact HS' |].
      assert (Ryx : R y x).
      { destruct (leb_total x y) as [H | H]; [congruence | exact H]. }
      destruct l as [| z l]; simpl; [constructor; exact Ryx |].
      destruct (leb x z); constructor; [exact Ryx |].
      inversion Hd; assumption.
Qed.

Lemma sort_by_sorted l : Sorted R (sort_by leb l).
Proof.
  induction l as [| x l IH]; simpl; [constructor |].
  apply insert_by_sorted. exact IH.
Qed.

End Sorting.

(** ** Positions, labels and groups *)

Lemma position_Some m l j :
  position m l = Some j -> nth j l "" = m /\ (j < List.length l)%nat.
Proof.
  revert j. induction l as [| a l IH]; simpl; intros j H; [discriminate |].
  destruct (String.eqb m a) eqn:E.
  - inversion H; subst. apply String.eqb_eq in E. split; [congruence | lia].
  - destruct (position m l) as [j' |]; [| discriminate].
    inversion H; subst. destruct (IH j' eq_refl). split; [assumption | lia].
Qed.

Lemma position_None m l : position m l = None <-> ~ In m l.
Proof.
  induction l as [| a l IH]; simpl; [tauto |].
  destruct (String.eqb m a) eqn:E.
  - apply String.eqb_eq in E. split; [discriminate |].
    intros H. exfalso. apply H. left. congruence.
  - apply String.eqb_neq in E.
    destruct (position m l); simpl.
    + split; [discriminate |]. intros H.
      assert (N : ~ In m l) by (intros H'; apply H; right; exact H').
      apply IH in N. discriminate.
    + split; [| reflexivity]. intros _ [H | H]; [congruence |].
      exact (proj1 IH eq_refl H).
Qed.

Lemma key2_eqb_eq a b : key2_eqb a b = true <-> a = b.
Proof.
  destruct a as [y p], b as [y' p']. unfold key2_eqb. simpl.
  rewrite andb_true_iff, Z.eqb_eq, String.eqb_eq. split.
  - intros [-> ->]. reflexivity.
  - intros H. inversion H. auto.
Qed.

Lemma key3_eqb_eq a b : key3_eqb a b = true <-> a = b.
Proof.
  destruct a as [k m], b as [k' m']. unfold key3_eqb. simpl.
  rewrite andb_true_iff, key2_eqb_eq, String.eqb_eq. split.
  - intros [-> ->]. reflexivity.
  - intros H. inversion H. auto.
Qed.

Lemma in_labels {K} (label : Claim -> option K) k df :
  In k (labels label df) <-> exists c, In c df /\ label c = Some k.
Proof.
  unfold labels. rewrite in_flat_map. split.
  - intros [c [Hc Hk]]. exists c. split; [exact Hc |].
    destruct (label c); simpl in Hk; [| contradiction].
    destruct Hk as [-> | []]. reflexivity.
  - intros [c [Hc Hk]]. exists c. split; [exact Hc |].
    rewrite Hk. left. reflexivity.
Qed.

Section Groups.

Context {K : Type} (eqb : K -> K -> bool) (leb : K -> K -> bool).
Variable label : Claim -> option K.
Hypothesis eqb_eq : forall a b, eqb a b = true <-> a = b.

Lemma in_group_keys k df :
  In k (group_keys eqb leb label df) <-> In k (labels label df).
Proof.
  unfold group_keys. rewrite in_sort_by. apply in_unique. exact eqb_eq.
Qed.

Lemma NoDup_group_keys df : NoDup (group_keys eqb leb label df).
Proof.
  unfold group_keys.
  apply (Permutation_NoDup (l := unique eqb (labels label df))).
  - symmetry. apply sort_by_perm.
  - apply NoDup_unique. exact eqb_eq.
Qed.

Lemma group_absent k df : ~ In k (labels label df) -> group eqb label k df = [].
Proof.
  intros H. unfold group.
  induction df as [| c df IH]; simpl; [reflexivity |].
  destruct (label c) as [k' |] eqn:E.
  - destruct (eqb k k') eqn:Ek.
    + apply eqb_eq in Ek. subst k'. exfalso. apply H.
      apply in_labels. exists c. split; [left; reflexivity | exact E].
    + apply IH. intros Hin. apply H. apply in_labels.
      apply in_labels in Hin. destruct Hin as [c' [H1 H2]].
      exists c'. split; [right; exact H1 | exact H2].
  - apply IH. intros Hin. apply H. apply in_labels.
    apply in_labels in Hin. destruct Hin as [c' [H1 H2]].
    exists c'. split; [right; exact H1 | exact H2].
Qed.

End Groups.

(** ** The monthly matrix *)

Lemma combine_map {A B} (h : A -> B) l :
  combine l (map h l) = map (fun x => (x, h x)) l.
Proof. induction l as [| a l IH]; simpl; [| rewrite IH]; reflexivity. Qed.

Lemma lookup3_groupby (G : key3 -> Q) keys k :
  lookup3 k (map (fun k => (k, G k)) keys)
  = if existsb (key3_eqb k) keys then Some (G k) else None.
Proof.
  unfold lookup3. induction keys as [| a keys IH]; simpl; [reflexivity |].
  destruct (key3_eqb k a) eqn:E; simpl.
  - apply key3_eqb_eq in E. subst. reflexivity.
  - exact IH.
Qed.

Lemma existsb_key3 k keys : existsb (key3_eqb k) keys = true <-> In k keys.
Proof.
  rewrite existsb_exists. split.
  - intros [x [Hx E]]. apply key3_eqb_eq in E. subst. exact Hx.
  - intros H. exists k. split; [exact H | apply key3_eqb_eq; reflexivity].
Qed.

Lemma grouped_paid_body f :
  body (grouped_paid f)
  = sort_by (fun a b => Z.leb (fst (fst a)) (fst (fst b)))
      (map (fun yp => (yp, matrix_cells f yp)) (matrix_index f)).
Proof.
  unfold grouped_paid, sort_values_by_year, reset_index, reindex, unstack,
    groupby_sum.
  cbn [body index values pcolumns].
  rewrite !map_map. cbn [fst snd].
  rewrite <- (map_map (fun yp => _) (fun r => map _ month_order)).
  rewrite map_map. rewrite combine_map. reflexivity.
Qed.

Lemma in_month_groups k f :
  In k (month_groups f) <-> exists c, In c f /\ year_payer_month c = Some k.
Proof.
  unfold month_groups.
  rewrite (in_group_keys _ _ _ key3_eqb_eq). apply in_labels.
Qed.

Lemma month_sum_absent f k : ~ In k (month_groups f) -> month_sum f k = 0.
Proof.
  intros H. unfold month_sum.
  rewrite (group_absent _ _ key3_eqb_eq); [reflexivity |].
  intros Hin. apply H. unfold month_groups.
  apply (in_group_keys _ _ _ key3_eqb_eq). exact Hin.
Qed.

(** What is read back from the grouped sums, 0 standing for a missing
    label, is the sum of the group, an absent group being an empty one. *)
Lemma lookup_month_sum f k :
  match lookup3 k (map (fun k => (k, month_sum f k)) (month_groups f)) with
  | Some v => v
  | None => 0
  end = month_sum f k.
Proof.
  rewrite lookup3_groupby.
  destruct (existsb (key3_eqb k) (month_groups f)) eqn:E; [reflexivity |].
  symmetry. apply month_sum_absent. intros H.
  apply existsb_key3 in H. congruence.
Qed.

Lemma in_months_present m f :
  In m (months_present f) <-> exists yp, In (yp, m) (month_groups f).
Proof.
  unfold months_present. rewrite in_sort_by, (in_unique _ String.eqb_eq), in_map_iff.
  split.
  - intros [[yp m'] [E H]]. simpl in E. subst. exists yp. exact H.
  - intros [yp H]. exists (yp, m). split; [reflexivity | exact H].
Qed.

Lemma matrix_cell f yp i :
  (i < 12)%nat ->
  nth i (matrix_cells f yp) 0 = month_sum f (yp, nth i month_order "").
Proof.
  intros Hi. unfold matrix_cells.
  set (cell_of := fun c : string => match position c (months_present f) with
                                    | Some j => _ | None => 0 end).
  rewrite (nth_indep _ 0 (cell_of "")) by (rewrite length_map; exact Hi).
  rewrite (map_nth cell_of). unfold cell_of. clear cell_of.
  set (m := nth i month_order "").
  destruct (position m (months_present f)) as [j |] eqn:P.
  - destruct (position_Some _ _ _ P) as [Hn Hj].
    set (read := fun m0 : string => match lookup3 (yp, m0) _ with
                                    | Some v => v | None => 0 end).
    rewrite (nth_indep _ 0 (read "")) by (rewrite length_map; exact Hj).
    rewrite (map_nth read). rewrite Hn. unfold read.
    apply lookup_month_sum.
  - symmetry. apply month_sum_absent. intros H.
    apply position_None in P. apply P.
    apply in_months_present. exists yp. exact H.
Qed.

Lemma matrix_cells_length f yp : List.length (matrix_cells f yp) = 12%nat.
Proof. unfold matrix_cells. rewrite length_map. reflexivity. Qed.

Lemma paid_in_month_sum y p m f : paid_in y p m f = month_sum f ((y, p), m).
Proof.
  unfold paid_in, month_sum, group. do 2 f_equal.
  apply filter_ext. intros c.
  unfold year_payer_month, year_payer.
  destruct (Payer_Name (row c)) as [p' |].
  - unfold key3_eqb, key2_eqb. cbn [fst snd].
    rewrite (Z.eqb_sym y), (String.eqb_sym p), (String.eqb_sym m). reflexivity.
  - rewrite andb_false_r. reflexivity.
Qed.

Lemma in_matrix_index y p f :
  In (y, p) (matrix_index f)
  <-> exists c, In c f /\ Remittance_Year c = y /\ Payer_Name (row c) = Some p.
Proof.
  unfold matrix_index. rewrite (in_unique _ key2_eqb_eq), in_map_iff. split.
  - intros [[yp m] [E H]]. simpl in E. subst yp.
    apply in_month_groups in H. destruct H as [c [Hc Hk]].
    exists c. split; [exact Hc |].
    unfold year_payer_month, year_payer in Hk.
    destruct (Payer_Name (row c)); inversion Hk; subst. auto.
  - intros [c [Hc [Hy Hp]]]. exists ((y, p), Remittance_Month c).
    split; [reflexivity |]. apply in_month_groups. exists c.
    split; [exact Hc |]. unfold year_payer_month, year_payer.
    rewrite Hp, Hy. reflexivity.
Qed.

Lemma StronglySorted_weaken {A} (R R' : A -> A -> Prop) l :
  (forall a b, R a b -> R' a b) -> StronglySorted R l -> StronglySorted R' l.
Proof.
  intros H HS. induction HS as [| a l HS IH HF]; constructor; [exact IH |].
  eapply Forall_impl; [| exact HF]. intros b. apply H.
Qed.

Lemma sort_values_ascending (rows : list (key2 * list Q)) :
  StronglySorted (fun a b => (fst (fst a) <= fst (fst b))%Z)
    (sort_by (fun a b => Z.leb (fst (fst a)) (fst (fst b))) rows).
Proof.
  apply StronglySorted_weaken
    with (R := fun a b => Z.leb (fst (fst a)) (fst (fst b)) = true).
  - intros a b H. apply Z.leb_le. exact H.
  - apply Sorted_StronglySorted.
    + intros a b c H1 H2. apply Z.leb_le. apply Z.leb_le in H1, H2. lia.
    + apply sort_by_sorted. intros a b.
      destruct (Z.le_ge_cases (fst (fst a)) (fst (fst b))) as [H | H];
        [left | right]; apply Z.leb_le; exact H.
Qed.

(** C6. For every filtered set (empty or not) the monthly matrix of lines
    75-76 has the columns year, payer and the twelve months Jan..Dec in
    calendar order, whatever months occur; every row has twelve cells; the
    cell of a row (year, payer) under a month is the sum of total_paid over
    the filtered rows of that year, payer and month, and is 0 when there is
    none; there is one row for each (year, payer) that occurs in the
    filtered set; and the rows are in ascending order of year. *)
Theorem C6_monthly_paid_matrix (filtered : list Claim) :
  let t := grouped_paid filtered in
  header t = "Remittance_Year" :: "Payer_Name" :: month_order
  /\ month_order
     = map strftime_b [Jan; Feb; Mar; Apr; May; Jun; Jul; Aug; Sep; Oct; Nov; Dec]
  /\ Forall (fun r => List.length (snd r) = 12%nat) (body t)
  /\ Forall (fun r => forall i, (i < 12)%nat ->
               nth i (snd r) 0
               = paid_in (fst (fst r)) (snd (fst r)) (nth i month_order "") filtered)
       (body t)
  /\ Forall (fun r => forall i, (i < 12)%nat ->
               (forall c, In c filtered ->
                  year_payer_month c <> Some (fst r, nth i month_order "")) ->
               nth i (snd r) 0 = 0)
       (body t)
  /\ NoDup (map fst (body t))
  /\ (forall y p,
        In (y, p) (map fst (body t))
        <-> exists c, In c filtered /\ Remittance_Year c = y
                      /\ Payer_Name (row c) = Some p)
  /\ StronglySorted (fun a b => (fst (fst a) <= fst (fst b))%Z) (body t).
Proof.
  cbv zeta. rewrite grouped_paid_body.
  set (leb := fun a b : key2 * list Q => Z.leb (fst (fst a)) (fst (fst b))).
  set (unsorted := map (fun yp => (yp, matrix_cells filtered yp))
                       (matrix_index filtered)).
  assert (Hrow : forall r, In r (sort_by leb unsorted) ->
                           snd r = matrix_cells filtered (fst r)).
  { intros r Hr. apply in_sort_by in Hr. unfold unsorted in Hr.
    apply in_map_iff in Hr. destruct Hr as [yp [<- _]]. reflexivity. }
  assert (Hkeys : Permutation (map fst (sort_by leb unsorted))
                              (matrix_index filtered)).
  { rewrite (sort_by_perm leb unsorted). unfold unsorted.
    rewrite map_map. cbn [fst]. rewrite map_id. reflexivity. }
  split; [reflexivity |]. split; [reflexivity |].
  split; [| split; [| split; [| split; [| split]]]].
  - apply Forall_forall. intros r Hr. pose proof (Hrow r Hr) as E.
    destruct r as [[y p] cells]. cbn [fst snd] in *. subst cells.
    apply matrix_cells_length.
  - apply Forall_forall. intros r Hr i Hi. pose proof (Hrow r Hr) as E.
    destruct r as [[y p] cells]. cbn [fst snd] in *. subst cells.
    rewrite matrix_cell by exact Hi. rewrite paid_in_month_sum. reflexivity.
  - apply Forall_forall. intros r Hr i Hi Habsent. pose proof (Hrow r Hr) as E.
    destruct r as [[y p] cells]. cbn [fst snd] in *. subst cells.
    rewrite matrix_cell by exact Hi. apply month_sum_absent.
    intros H. apply in_month_groups in H. destruct H as [c [Hc Hk]].
    exact (Habsent c Hc Hk).
  - apply (Permutation_NoDup (l := matrix_index filtered)).
    + symmetry. exact Hkeys.
    + apply NoDup_unique. exact key2_eqb_eq.
  - intros y p. rewrite <- in_matrix_index.
    split; apply Permutation_in; [| symmetry]; exact Hkeys.
  - apply sort_values_ascending.
Qed.

(** ** The empty filtered set *)

(** C7. On the empty filtered set both aggregations return a table with
    no rows and the columns they have on any filtered set; they are total
    functions, so nothing is raised, and a run whose selection matches no row
    ends normally with these two tables. *)
Theorem C7_empty_filtered_set :
  grouped_paid []
  = {| header := "Remittance_Year" :: "Payer_Name" :: month_order; body := [] |}
  /\ summary_table []
     = {| header := ["Remittance_Year"; "Payer_Name"; "Total_Submitted";
                     "Total_Paid"; "Total_Denied"; "Total_Pending"];
          body := [] |}
  /\ (forall filtered,
        header (grouped_paid filtered) = header (grouped_paid [])
        /\ header (summary_table filtered) = header (summary_table []))
  /\ exists df,
       Sample.pipeline acme_upload [PInt 1999] [ALL]
       = Done {| working_set := df; filtered := [];
                 monthly := grouped_paid []; summary := summary_table [] |}.
Proof.
  split; [reflexivity |]. split; [reflexivity |].
  split; [intros filtered; split; reflexivity |].
  eexists. vm_compute. reflexivity.
Qed.

(** ** The export *)

Import Report.

Lemma exists_file_without path fs w :
  files w = without path fs -> exists_file path w = false.
Proof.
  unfold exists_file, without. intros ->.
  induction fs as [| f fs IH]; simpl; [reflexivity |].
  destruct (String.eqb path (fst f)) eqn:E; simpl; [exact IH |].
  rewrite E. exact IH.
Qed.

Lemma exists_file_written path book fs offered0 :
  exists_file path {| files := (path, book) :: fs; offered := offered0 |} = true.
Proof. unfold exists_file. simpl. rewrite String.eqb_refl. reflexivity. Qed.

(** C9, as stated, fails: in a run where the workbook is written and the
    download button raises, the export ends in the exception and the file is
    still on disk. *)
Lemma C9_file_left_when_handoff_raises :
  fst (export failing_handoff empty_world)
    = Raised (RuntimeError "download_button")
  /\ exists_file output_file (snd (export failing_handoff empty_world)) = true.
Proof. split; reflexivity. Qed.

(** C9, amended. In a run where the workbook is written: if the hand-off
    returns, the export ends normally, the download has been offered and the
    file is no longer on disk; if the hand-off raises, the export ends in
    that exception, [os.remove] is not reached and the file is still on
    disk. *)
Theorem C9_export_cleanup_amended (run : Run) (w : World) :
  writer_raises run = None ->
  (download_button_raises run = None ->
     fst (export run w) = Done tt
     /\ exists_file output_file (snd (export run w)) = false
     /\ offered (snd (export run w)) = output_file :: offered w)
  /\ (forall e, download_button_raises run = Some e ->
        fst (export run w) = Raised e
        /\ exists_file output_file (snd (export run w)) = true
        /\ offered (snd (export run w)) = offered w).
Proof.
  intros Hw.
  assert (Hopen : forall fs o,
            open_rb output_file
              {| files := (output_file, sheets) :: fs; offered := o |}
            = (Done output_file,
               {| files := (output_file, sheets) :: fs; offered := o |})).
  { intros fs o. unfold open_rb. rewrite exists_file_written. reflexivity. }
  split.
  - intros Hd. unfold export, seq, ExcelWriter. rewrite Hw, Hopen.
    unfold download_button. rewrite Hd. cbn [files offered].
    unfold os_remove. rewrite exists_file_written. cbn [fst snd files offered].
    split; [reflexivity |]. split; [| reflexivity].
    eapply exists_file_without. reflexivity.
  - intros e Hd. unfold export, seq, ExcelWriter. rewrite Hw, Hopen.
    unfold download_button. rewrite Hd. cbn [fst snd offered].
    split; [reflexivity |]. split; [| reflexivity].
    apply exists_file_written.
Qed.

(** A run where both calls return, and a run where the button raises. *)
Lemma C9_export_cleanup_amended_witness :
  (fst (export quiet_run empty_world) = Done tt
   /\ exists_file output_file (snd (export quiet_run empty_world)) = false
   /\ offered (snd (export quiet_run empty_world)) = [output_file])
  /\ (fst (export failing_handoff empty_world)
        = Raised (RuntimeError "download_button")
      /\ exists_file output_file (snd (export failing_handoff empty_world)) = true
      /\ offered (snd (export failing_handoff empty_world)) = []).
Proof.
  split.
  - exact (proj1 (C9_export_cleanup_amended quiet_run empty_world eq_refl) eq_refl).
  - exact (proj2 (C9_export_cleanup_amended failing_handoff empty_world eq_refl)
             _ eq_refl).
Defined.

(* ================================================================== *)
(** * Further properties of the script *)

(** ** Validation and column selection (lines 20-35) *)

Lemma single_column_not_stopped names name dup m :
  single_column names name dup <> Stopped m.
Proof.
  unfold single_column. destruct (position name names); [| discriminate].
  destruct (occurrences name names <=? 1)%nat; discriminate.
Qed.

Lemma amount_positions_not_stopped names wanted m :
  amount_positions names wanted <> Stopped m.
Proof.
  revert m. induction wanted as [| w wanted IH]; simpl; intros m;
    [discriminate |].
  destruct (single_column names w (ValueError w)) as [i | m' | e] eqn:E; simpl.
  - destruct (amount_positions names wanted) as [l | m' | e] eqn:E'; simpl;
      [discriminate | exfalso; exact (IH m' eq_refl) | discriminate].
  - exfalso. exact (single_column_not_stopped _ _ _ _ E).
  - discriminate.
Qed.

Lemma layout_not_stopped names m : layout names <> Stopped m.
Proof.
  unfold layout, select_amounts.
  destruct (missing_from names amount_cols); [| discriminate].
  destruct (amount_positions names amount_cols) as [ia | m' | e] eqn:EA; simpl;
    [| exfalso; exact (amount_positions_not_stopped _ _ _ EA) | discriminate].
  destruct (single_column names "Remittance_Date" _) as [i | m' | e] eqn:ED;
    simpl;
    [| exfalso; exact (single_column_not_stopped _ _ _ _ ED) | discriminate].
  destruct (single_column names "Payer_Name" _) as [j | m' | e] eqn:EP; simpl;
    [discriminate | exfalso; exact (single_column_not_stopped _ _ _ _ EP)
     | discriminate].
Qed.

(** The whole run in terms of its three stages. *)
Lemma pipeline_rows tn td names rs sy si :
  pipeline tn td {| columns := names; rows := rs |} sy si
  = match missing_from names required_cols with
    | [] =>
        match layout (map strip names) with
        | Done l =>
            let df := add_derived_columns (dropna (map (typed_row tn td l) rs)) in
            let f := filtered_df df sy si in
            Done {| working_set := df; filtered := f;
                    monthly := grouped_paid f; summary := summary_table f |}
        | Stopped m => Stopped m
        | Raised e => Raised e
        end
    | missing => Stopped missing
    end.
Proof.
  unfold pipeline, prepare. rewrite clean_rows.
  destruct (missing_from names required_cols); [| reflexivity].
  destruct (layout (map strip names)); reflexivity.
Qed.

(** X1. The run stops at validation exactly when a required name is not
    among the column names as read; the names it reports are then the
    required names that are absent, each once. *)
Theorem X1_stops_exactly_on_missing_required
    (to_numeric : string -> option Q) (to_datetime : string -> option date)
    (df : DataFrame) (selected_year selected_insurance : list pyval) :
  (forall m,
     pipeline to_numeric to_datetime df selected_year selected_insurance
       = Stopped m
     <-> m = missing_cols df /\ m <> [])
  /\ (forall c, In c (missing_cols df)
                <-> In c required_cols /\ ~ In c (columns df))
  /\ NoDup (missing_cols df).
Proof.
  destruct df as [names rs].
  split; [| split].
  - intros m. rewrite pipeline_rows. unfold missing_cols. cbn [columns].
    destruct (missing_from names required_cols) as [| c cs] eqn:E.
    + destruct (layout (map strip names)) eqn:EL; cbn zeta.
      * split; [discriminate | intros [H1 H2]; congruence].
      * exfalso. exact (layout_not_stopped _ _ EL).
      * split; [discriminate | intros [H1 H2]; congruence].
    + split.
      * intros H. inversion H; subst. split; [reflexivity | discriminate].
      * intros [-> _]. reflexivity.
  - intros c. apply in_missing_from.
  - unfold missing_cols, missing_from. apply NoDup_filter.
    unfold required_cols. repeat constructor; simpl; intuition discriminate.
Qed.

Lemma position_present name names :
  In name names -> exists i, position name names = Some i.
Proof.
  intros H. destruct (position name names) as [i |] eqn:E; [eauto |].
  apply position_None in E. contradiction.
Qed.

Lemma amount_positions_KeyError names wanted absent :
  amount_positions names wanted = Raised (KeyError absent) ->
  exists c, In c wanted /\ ~ In c names.
Proof.
  induction wanted as [| w wanted IH]; simpl; [discriminate |].
  unfold single_column at 1.
  destruct (position w names) as [i |] eqn:P.
  - destruct (occurrences w names <=? 1)%nat; simpl; [| discriminate].
    destruct (amount_positions names wanted) eqn:E; simpl; try discriminate.
    intros H. inversion H; subst. destruct (IH eq_refl) as [c [H1 H2]].
    exists c. auto.
  - intros _. exists w. split; [left; reflexivity |].
    apply position_None. exact P.
Qed.

Lemma required_survive_strip names c :
  In c required_cols -> In c names -> In c (map strip names).
Proof.
  intros Hc Hn. apply in_map_iff. exists c. split; [| exact Hn].
  unfold required_cols in Hc. simpl in Hc.
  destruct Hc as [<- | [<- | [<- | []]]]; reflexivity.
Qed.

Lemma validated_present df c :
  missing_cols df = [] -> In c required_cols -> In c (columns df).
Proof.
  intros H Hc. destruct (in_dec string_dec c (columns df)) as [Hin | Hout];
    [exact Hin |].
  assert (In c (missing_cols df)) by (apply in_missing_from; auto).
  rewrite H in *. contradiction.
Qed.

(** X2. A header written in ASCII that passes validation still has its three required
    columns after line 28 strips the names; the only [KeyError] the
    cleaning can then raise is the one of line 35, which lists amount
    columns other than [Paid_Amount] that are absent from the stripped
    names. *)
Theorem X2_validated_header_survives_strip (df : DataFrame) :
  forallb is_ascii (columns df) = true ->
  missing_cols df = [] ->
  missing_cols (strip_columns df) = []
  /\ forall absent,
       layout (map strip (columns df)) = Raised (KeyError absent) ->
       absent = missing_from (map strip (columns df)) amount_cols
       /\ absent <> []
       /\ forall c, In c absent ->
            In c amount_cols /\ c <> "Paid_Amount"
            /\ ~ In c (map strip (columns df)).
Proof.
  intros _ Hv.
  assert (Hreq : forall c, In c required_cols -> In c (map strip (columns df))).
  { intros c Hc. apply required_survive_strip; [exact Hc |].
    apply validated_present; assumption. }
  split.
  - destruct (missing_cols (strip_columns df)) as [| c cs] eqn:E; [reflexivity |].
    assert (Hin : In c (missing_cols (strip_columns df)))
      by (rewrite E; left; reflexivity).
    apply in_missing_from in Hin. destruct Hin as [H1 H2].
    exfalso. apply H2. cbn [strip_columns columns]. apply Hreq. exact H1.
  - intros absent. unfold layout, select_amounts.
    set (names := map strip (columns df)) in *.
    destruct (missing_from names amount_cols) as [| a l] eqn:EM.
    + destruct (amount_positions names amount_cols) eqn:EA; simpl.
      * destruct (position_present "Remittance_Date" names) as [i Hi];
          [apply Hreq; simpl; auto |].
        destruct (position_present "Payer_Name" names) as [j Hj];
          [apply Hreq; simpl; auto |].
        unfold single_column. rewrite Hi, Hj.
        destruct (occurrences "Remittance_Date" names <=? 1)%nat; simpl;
          [| discriminate].
        destruct (occurrences "Payer_Name" names <=? 1)%nat; discriminate.
      * discriminate.
      * intros H. inversion H; subst.
        destruct (amount_positions_KeyError _ _ _ EA) as [c [H1 H2]].
        exfalso.
        assert (Hin : In c (missing_from names amount_cols))
          by (apply in_missing_from; auto).
        rewrite EM in Hin. contradiction.
    + simpl. intros H. inversion H; subst absent.
      split; [reflexivity |]. split; [discriminate |].
      intros c Hc. rewrite <- EM in Hc. apply in_missing_from in Hc.
      destruct Hc as [H1 H2]. split; [exact H1 |]. split; [| exact H2].
      intros ->. apply H2. apply Hreq. simpl. auto.
Qed.

Lemma X2_validated_header_survives_strip_witness :
  missing_cols (strip_columns required_only_upload) = []
  /\ forall absent,
       layout (map strip required_cols) = Raised (KeyError absent) ->
       absent = missing_from (map strip required_cols) amount_cols
       /\ absent <> []
       /\ forall c, In c absent ->
            In c amount_cols /\ c <> "Paid_Amount"
            /\ ~ In c (map strip required_cols).
Proof.
  exact (X2_validated_header_survives_strip required_only_upload eq_refl eq_refl).
Defined.

(** X3. When a header written in ASCII passes validation and an amount
    column is absent
    from the stripped names, the run ends in the [KeyError] of line 35,
    which lists the absent amount columns in the order of [amount_cols],
    whatever the rows and the selections are: an absent amount column is
    not read as zeros. *)
Theorem X3_absent_amount_column_raises
    (to_numeric : string -> option Q) (to_datetime : string -> option date)
    (df : DataFrame) (selected_year selected_insurance : list pyval) :
  forallb is_ascii (columns df) = true ->
  missing_cols df = [] ->
  missing_from (map strip (columns df)) amount_cols <> [] ->
  pipeline to_numeric to_datetime df selected_year selected_insurance
  = Raised (KeyError (missing_from (map strip (columns df)) amount_cols)).
Proof.
  intros _ Hv Ha. destruct df as [names rs]. rewrite pipeline_rows.
  unfold missing_cols in Hv. cbn [columns] in *. rewrite Hv.
  unfold layout, select_amounts.
  destruct (missing_from (map strip names) amount_cols); [congruence |].
  reflexivity.
Qed.

Lemma X3_absent_amount_column_raises_witness :
  Sample.pipeline required_only_upload [ALL] [ALL]
  = Raised (KeyError
      ["Resubmission_Paid_Amount_1"; "Resubmission_Paid_Amount2";
       "Submitted_Amount"; "Resubmitted_Amount_1"; "Resubmitted_Amount2";
       "Denied_Amount"; "Resubmission_Denied_Amount_Remittance_1";
       "Resubmission_Denied_Amount_Remittance_2"]).
Proof.
  refine (X3_absent_amount_column_raises Sample.decimal Sample.iso_date
            required_only_upload [ALL] [ALL] eq_refl eq_refl _).
  discriminate.
Defined.

Lemma dropna_dates tn td l rs :
  map Remittance_Date (dropna (map (typed_row tn td l) rs))
  = flat_map (fun r => match parse_date td (at_column r (date_index l)) with
                       | Some d => [d]
                       | None => []
                       end) rs.
Proof.
  induction rs as [| r rs IH]; simpl; [reflexivity |].
  destruct (parse_date td (at_column r (date_index l))); simpl;
    rewrite IH; reflexivity.
Qed.

Lemma dropna_length df : (List.length (dropna df) <= List.length df)%nat.
Proof.
  induction df as [| t df IH]; simpl; [lia |].
  destruct (t_date t); simpl; lia.
Qed.



(** ** The date columns (lines 42-44) *)

(** X6. Every row of the working set carries the year of its date, a month
    name that is one of the twelve of [month_order], and a quarter between 1
    and 4 that is the quarter of that month (months 1-3 of [month_order]
    give 1, months 4-6 give 2, and so on). *)
Theorem X6_date_columns (df : list ClaimRow) :
  Forall (fun c =>
            Remittance_Year c = year (Remittance_Date (row c))
            /\ (1 <= Quarter c <= 4)%Z
            /\ exists i, (i < 12)%nat
                 /\ nth i month_order "" = Remittance_Month c
                 /\ Quarter c = (Z.of_nat (i / 3) + 1)%Z)
         (add_derived_columns df).
Proof.
  apply Forall_forall. intros c Hc.
  apply in_add_derived_columns in Hc. destruct Hc as [r [_ ->]].
  cbn [row Deriver.derive Remittance_Year Quarter Remittance_Month].
  split; [reflexivity |].
  unfold quarter. destruct (month (Remittance_Date r)); cbn.
  - split; [lia |]. exists 0%nat. repeat split; lia.
  - split; [lia |]. exists 1%nat. repeat split; lia.
  - split; [lia |]. exists 2%nat. repeat split; lia.
  - split; [lia |]. exists 3%nat. repeat split; lia.
  - split; [lia |]. exists 4%nat. repeat split; lia.
  - split; [lia |]. exists 5%nat. repeat split; lia.
  - split; [lia |]. exists 6%nat. repeat split; lia.
  - split; [lia |]. exists 7%nat. repeat split; lia.
  - split; [lia |]. exists 8%nat. repeat split; lia.
  - split; [lia |]. exists 9%nat. repeat split; lia.
  - split; [lia |]. exists 10%nat. repeat split; lia.
  - split; [lia |]. exists 11%nat. repeat split; lia.
Qed.

(** ** The filter (lines 56-71) *)

Lemma filter_all {A} (f : A -> bool) l :
  (forall x, In x l -> f x = true) -> filter f l = l.
Proof.
  induction l as [| a l IH]; simpl; intros H; [reflexivity |].
  rewrite (H a (or_introl eq_refl)). f_equal. apply IH.
  intros x Hx. apply H. right. exact Hx.
Qed.

Lemma filter_none {A} (f : A -> bool) l :
  (forall x, In x l -> f x = false) -> filter f l = [].
Proof.
  induction l as [| a l IH]; simpl; intros H; [reflexivity |].
  rewrite (H a (or_introl eq_refl)). apply IH.
  intros x Hx. apply H. right. exact Hx.
Qed.

Lemma effective_ALL present selected :
  In ALL selected -> effective present selected = unique pyval_eqb present.
Proof. intros H. apply isin_In in H. unfold effective. rewrite H. reflexivity. Qed.

Lemma isin_effective_ALL {A} (value : A -> pyval) (df : list A) selected c :
  In ALL selected -> In c df ->
  isin (value c) (effective (map value df) selected) = true.
Proof.
  intros HA Hc. rewrite (effective_ALL _ _ HA). apply isin_In.
  apply (in_unique _ pyval_eqb_eq). apply in_map. exact Hc.
Qed.

(** X7. With the sentinel in both selections (the default of both
    widgets) the filter keeps every row of the working set, in order; rows
    with an empty payer are kept too. *)
Theorem X7_default_selection_keeps_all
    (df : list Claim) (selected_year selected_insurance : list pyval) :
  In ALL selected_year -> In ALL selected_insurance ->
  filtered_df df selected_year selected_insurance = df.
Proof.
  intros Hy Hi. unfold filtered_df, effective_year, effective_insurance.
  apply filter_all. intros c Hc.
  rewrite (isin_effective_ALL year_value df _ c Hy Hc).
  rewrite (isin_effective_ALL payer_value df _ c Hi Hc). reflexivity.
Qed.

Lemma X7_default_selection_keeps_all_witness :
  filtered_df mixed_claims [ALL] [ALL; PStr "Acme"] = mixed_claims.
Proof.
  refine (X7_default_selection_keeps_all mixed_claims [ALL] [ALL; PStr "Acme"] _ _);
    left; reflexivity.
Defined.

(** X8. A selection emptied by the user selects nothing: when either
    multiselect is empty the filtered set is empty, whatever the other
    selection is. *)
Theorem X8_empty_selection_selects_nothing
    (df : list Claim) (selected_year selected_insurance : list pyval) :
  filtered_df df [] selected_insurance = []
  /\ filtered_df df selected_year [] = [].
Proof.
  unfold filtered_df, effective_year, effective_insurance. split.
  - apply filter_none. intros c _. reflexivity.
  - apply filter_none. intros c _. apply andb_false_r.
Qed.

Lemma NoDup_sorted_strict l :
  NoDup l -> StronglySorted Z.le l -> StronglySorted Z.lt l.
Proof.
  intros Hn Hs. induction Hs as [| a l Hs IH Hf]; constructor.
  - apply IH. inversion Hn; assumption.
  - inversion Hn as [| ? ? Hnotin Hn']; subst.
    apply Forall_forall. intros b Hb.
    rewrite Forall_forall in Hf. specialize (Hf b Hb).
    assert (a <> b) by (intros ->; contradiction). lia.
Qed.

Lemma sorted_years l :
  StronglySorted Z.le (sort_by Z.leb l).
Proof.
  apply StronglySorted_weaken with (R := ordered_by Z.leb).
  - intros a b H. apply Z.leb_le. exact H.
  - apply Sorted_StronglySorted.
    + intros a b c H1 H2. unfold ordered_by in *.
      apply Z.leb_le. apply Z.leb_le in H1, H2. lia.
    + apply sort_by_sorted. intros a b.
      destruct (Z.le_ge_cases a b) as [H | H]; [left | right];
        apply Z.leb_le; exact H.
Qed.

Lemma isin_map_PInt y ys : isin (PInt y) (map PInt ys) = true <-> In y ys.
Proof.
  rewrite isin_In, in_map_iff. split.
  - intros [x [E H]]. inversion E; subst. exact H.
  - intros H. exists y. auto.
Qed.

Lemma effective_explicit present selected :
  ~ In ALL selected -> effective present selected = selected.
Proof.
  intros H. unfold effective. destruct (isin ALL selected) eqn:E.
  - apply isin_In in E. contradiction.
  - apply filter_not_ALL. exact H.
Qed.

(** X9. The year options are the sentinel followed by the years of the
    working set, each once, in strictly ascending order; the payer options
    are the sentinel followed by the payers of the working set, each once.
    Selecting every listed year (or every listed payer) without the
    sentinel filters exactly as the sentinel alone does. *)
Theorem X9_option_lists
    (df : list Claim) (selected_year selected_insurance : list pyval) :
  (exists ys, year_options df = ALL :: map PInt ys
              /\ StronglySorted Z.lt ys
              /\ forall y, In y ys <-> exists c, In c df /\ Remittance_Year c = y)
  /\ (exists ps, insurance_options df = ALL :: ps
                 /\ NoDup ps
                 /\ forall p, In p ps <-> exists c, In c df /\ payer_value c = p)
  /\ filtered_df df (tl (year_options df)) selected_insurance
     = filtered_df df [ALL] selected_insurance
  /\ filtered_df df selected_year (tl (insurance_options df))
     = filtered_df df selected_year [ALL].
Proof.
  assert (Hys : forall y, In y (sort_by Z.leb (unique Z.eqb (map Remittance_Year df)))
                          <-> exists c, In c df /\ Remittance_Year c = y).
  { intros y. rewrite in_sort_by, (in_unique _ Z.eqb_eq), in_map_iff.
    split; intros [c [H1 H2]]; exists c; auto. }
  split; [| split; [| split]].
  - exists (sort_by Z.leb (unique Z.eqb (map Remittance_Year df))).
    split; [reflexivity |]. split; [| exact Hys].
    apply NoDup_sorted_strict; [| apply sorted_years].
    apply (Permutation_NoDup (l := unique Z.eqb (map Remittance_Year df))).
    + symmetry. apply sort_by_perm.
    + apply NoDup_unique. exact Z.eqb_eq.
  - exists (unique pyval_eqb (map payer_value df)).
    split; [reflexivity |]. split; [apply NoDup_unique, pyval_eqb_eq |].
    intros p. rewrite (in_unique _ pyval_eqb_eq), in_map_iff.
    split; intros [c [H1 H2]]; exists c; auto.
  - unfold filtered_df, effective_year. apply filter_ext_in. intros c Hc.
    f_equal. cbn [year_options tl].
    rewrite effective_explicit.
    + rewrite (isin_effective_ALL year_value df [ALL] c); [| left; reflexivity | exact Hc].
      apply isin_map_PInt. apply Hys. exists c. auto.
    + intros H. apply in_map_iff in H. destruct H as [y [E _]]. discriminate.
  - unfold filtered_df, effective_insurance. apply filter_ext_in. intros c Hc.
    f_equal. cbn [insurance_options tl].
    set (ps := unique pyval_eqb (map payer_value df)).
    assert (E : effective (map payer_value df) ps = ps).
    { destruct (isin ALL ps) eqn:EA.
      - unfold effective. rewrite EA. reflexivity.
      - apply effective_explicit. intros H. apply isin_In in H. congruence. }
    rewrite E. rewrite (effective_ALL _ [ALL]); [reflexivity | left; reflexivity].
Qed.

(** ** The summary table (lines 79-84) *)

Lemma total_in_group column y p f :
  total_in column y p f
  = sum (map column (group key2_eqb year_payer (y, p) f)).
Proof.
  unfold total_in, group. do 2 f_equal. apply filter_ext. intros c.
  unfold year_payer. destruct (Payer_Name (row c)) as [p' |].
  - unfold key2_eqb. cbn [fst snd].
    rewrite (Z.eqb_sym y), (String.eqb_sym p). reflexivity.
  - apply andb_false_r.
Qed.

Lemma in_year_payer_keys y p f :
  In (y, p) (group_keys key2_eqb key2_leb year_payer f)
  <-> exists c, In c f /\ Remittance_Year c = y /\ Payer_Name (row c) = Some p.
Proof.
  rewrite (in_group_keys _ _ _ key2_eqb_eq), in_labels.
  unfold year_payer. split.
  - intros [c [Hc Hk]]. exists c. split; [exact Hc |].
    destruct (Payer_Name (row c)); inversion Hk; subst. auto.
  - intros [c [Hc [Hy Hp]]]. exists c. split; [exact Hc |].
    rewrite Hp, Hy. reflexivity.
Qed.

Lemma summary_table_body f :
  body (summary_table f)
  = sort_by (fun a b => Z.leb (fst (fst a)) (fst (fst b)))
      (map (fun k => (k, map (fun column => total_in column (fst k) (snd k) f)
                            total_columns))
           (group_keys key2_eqb key2_leb year_payer f)).
Proof.
  unfold summary_table, sort_values_by_year, groupby_agg. cbn [body].
  f_equal. apply map_ext. intros [y p]. f_equal. unfold total_columns.
  cbn [map fst snd]. rewrite !total_in_group. reflexivity.
Qed.

(** X10. The summary table has one row for each (year, payer) that occurs
    in the filtered set with a payer; its four cells are the sums of
    total_submitted, total_paid, total_denied and total_pending over the
    filtered rows of that year and payer; the rows are in ascending order of
    year. *)
Theorem X10_summary_table (filtered : list Claim) :
  let t := summary_table filtered in
  Forall (fun r => snd r
                   = map (fun column =>
                            total_in column (fst (fst r)) (snd (fst r)) filtered)
                         total_columns)
         (body t)
  /\ NoDup (map fst (body t))
  /\ (forall y p,
        In (y, p) (map fst (body t))
        <-> exists c, In c filtered /\ Remittance_Year c = y
                      /\ Payer_Name (row c) = Some p)
  /\ ascending_by_year (body t).
Proof.
  cbv zeta. rewrite summary_table_body.
  set (leb := fun a b : key2 * list Q => Z.leb (fst (fst a)) (fst (fst b))).
  set (keys := group_keys key2_eqb key2_leb year_payer filtered).
  set (unsorted :=
         map (fun k : key2 =>
                (k, map (fun column => total_in column (fst k) (snd k) filtered)
                      total_columns)) keys).
  assert (Hkeys : Permutation (map fst (sort_by leb unsorted)) keys).
  { rewrite (sort_by_perm leb unsorted). unfold unsorted.
    rewrite map_map. cbn [fst]. rewrite map_id. reflexivity. }
  split; [| split; [| split]].
  - apply Forall_forall. intros r Hr. apply in_sort_by in Hr.
    unfold unsorted in Hr. apply in_map_iff in Hr.
    destruct Hr as [k [<- _]]. reflexivity.
  - apply (Permutation_NoDup (l := keys)); [symmetry; exact Hkeys |].
    apply NoDup_group_keys. exact key2_eqb_eq.
  - intros y p. rewrite <- in_year_payer_keys.
    split; apply Permutation_in; [| symmetry]; exact Hkeys.
  - apply sort_values_ascending.
Qed.

(** ** Rows without a date (lines 38-39) *)



(** ** The by-payer chart tables (lines 108 and 143) *)

Lemma Qle_bool_total a b : Qle_bool a b = true \/ Qle_bool b a = true.
Proof.
  rewrite !Qle_bool_iff. destruct (Qlt_le_dec a b) as [H | H];
    [left; apply Qlt_le_weak; exact H | right; exact H].
Qed.

(** X13. The table behind the area chart holds the rows of the by-payer
    table, in descending order of total paid; it has one row for each payer
    that occurs in the filtered set, and none for the empty payer. *)
Theorem X13_area_data_descending (f : list Claim) :
  Permutation (area_data f) (insurance_paid f)
  /\ StronglySorted (fun a b => snd b <= snd a) (area_data f)
  /\ NoDup (map fst (area_data f))
  /\ (forall p, In p (map fst (area_data f))
                <-> exists c, In c f /\ Payer_Name (row c) = Some p).
Proof.
  unfold area_data.
  set (leb := fun a b : string * Q => Qle_bool (snd b) (snd a)).
  assert (Hp : Permutation (sort_by leb (insurance_paid f)) (insurance_paid f))
    by apply sort_by_perm.
  assert (Hk : map fst (insurance_paid f)
               = group_keys String.eqb string_leb by_payer f).
  { unfold insurance_paid, groupby_sum. rewrite map_map. apply map_id. }
  split; [exact Hp |]. split; [| split].
  - apply StronglySorted_weaken with (R := ordered_by leb).
    + intros a b H. apply Qle_bool_iff. exact H.
    + apply Sorted_StronglySorted.
      * intros a b c H1 H2. unfold ordered_by, leb in *.
        apply Qle_bool_iff. apply Qle_bool_iff in H1, H2.
        eapply Qle_trans; eassumption.
      * apply sort_by_sorted. intros a b. apply Qle_bool_total.
  - apply (Permutation_NoDup (l := map fst (insurance_paid f))).
    + symmetry. apply Permutation_map. exact Hp.
    + rewrite Hk. apply NoDup_group_keys. exact String.eqb_eq.
  - intros p.
    assert (E : In p (map fst (sort_by leb (insurance_paid f)))
                <-> In p (map fst (insurance_paid f))).
    { split; apply Permutation_in; [| symmetry]; apply Permutation_map; exact Hp. }
    rewrite E, Hk, (in_group_keys _ _ _ String.eqb_eq), in_labels.
    reflexivity.
Qed.

(** ** The export (lines 208-219), further *)


Lemma without_without path fs : without path (without path fs) = without path fs.
Proof.
  unfold without. induction fs as [| f fs IH]; simpl; [reflexivity |].
  destruct (String.eqb path (fst f)) eqn:E; simpl; [exact IH |].
  rewrite E. simpl. f_equal. exact IH.
Qed.

Lemma without_written path book fs :
  without path ((path, book) :: fs) = without path fs.
Proof. unfold without. simpl. rewrite String.eqb_refl. reflexivity. Qed.

Lemma export_world (run : Run) (w : World) :
  export run w
  = match writer_raises run with
    | Some failure =>
        (Raised (raised failure),
         match saved failure with
         | Some partial =>
             {| files := (output_file, partial) :: without output_file (files w);
                offered := offered w |}
         | None => w
         end)
    | None =>
        match download_button_raises run with
        | Some e =>
            (Raised e,
             {| files := (output_file, sheets) :: without output_file (files w);
                offered := offered w |})
        | None =>
            (Done tt,
             {| files := without output_file (files w);
                offered := output_file :: offered w |})
        end
    end.
Proof.
  assert (Hopen : forall fs o,
            open_rb output_file
              {| files := (output_file, sheets) :: fs; offered := o |}
            = (Done output_file,
               {| files := (output_file, sheets) :: fs; offered := o |})).
  { intros fs o. unfold open_rb. rewrite exists_file_written. reflexivity. }
  unfold export, seq, ExcelWriter.
  destruct (writer_raises run); [reflexivity |].
  rewrite Hopen. unfold download_button.
  destruct (download_button_raises run); [reflexivity |].
  cbn [files offered]. unfold os_remove.
  rewrite exists_file_written. cbn [files offered].
  rewrite without_written, without_without. reflexivity.
Qed.

(** X15. The export touches no file but the report: whatever the two
    library calls do, every file stored under another path is afterwards as
    it was, and the downloads offered before are still offered. *)
Theorem X15_export_touches_only_report (run : Run) (w : World) :
  without output_file (files (snd (export run w)))
    = without output_file (files w)
  /\ (offered (snd (export run w)) = offered w
      \/ offered (snd (export run w)) = output_file :: offered w).
Proof.
  rewrite export_world.
  destruct (writer_raises run) as [failure |].
  - cbn [snd]. destruct (saved failure); cbn [files offered].
    + rewrite without_written, without_without.
      split; [reflexivity | left; reflexivity].
    + split; [reflexivity | left; reflexivity].
  - destruct (download_button_raises run); cbn [snd files offered].
    + rewrite without_written, without_without.
      split; [reflexivity | left; reflexivity].
    + rewrite without_without. split; [reflexivity | right; reflexivity].
Qed.

(** X16. When the writer raises, the export ends in that exception, offers
    no download and does not reach [os.remove]: what the writer saved under
    the report's path on leaving the [with] block stays on disk, in the place
    of any earlier report, and if it saved nothing the disk is as it was.
    When both calls return, a file that was already stored under the
    report's path is gone as well: the export leaves no file of that name,
    whether or not one existed before. *)
Theorem X16_export_writer_failure_and_overwrite (run : Run) (w : World) :
  (forall failure, writer_raises run = Some failure ->
     fst (export run w) = Raised (raised failure)
     /\ offered (snd (export run w)) = offered w
     /\ files (snd (export run w))
        = match saved failure with
          | Some partial => (output_file, partial) :: without output_file (files w)
          | None => files w
          end)
  /\ (writer_raises run = None -> download_button_raises run = None ->
      files (snd (export run w)) = without output_file (files w)
      /\ exists_file output_file (snd (export run w)) = false).
Proof.
  rewrite export_world. split.
  - intros failure ->. cbn [fst snd].
    destruct (saved failure); repeat split; reflexivity.
  - intros -> ->. cbn [snd files]. split; [reflexivity |].
    eapply exists_file_without. reflexivity.
Qed.

(** A writer that raises after saving the first sheet, and a run where
    both calls return, on a disk that already holds a report. *)
Lemma X16_export_writer_failure_and_overwrite_witness :
  (fst (export failing_writer used_world) = Raised (ValueError "Summary")
   /\ offered (snd (export failing_writer used_world)) = []
   /\ files (snd (export failing_writer used_world))
      = [("Insurance_Claims_Report.xlsx", ["Paid Claims Per Month"]);
         ("notes.txt", [])])
  /\ files (snd (export quiet_run used_world)) = [("notes.txt", [])]
  /\ exists_file output_file (snd (export quiet_run used_world)) = false.
Proof.
  split.
  - exact (proj1 (X16_export_writer_failure_and_overwrite failing_writer used_world)
             _ eq_refl).
  - exact (proj2 (X16_export_writer_failure_and_overwrite quiet_run used_world)
             eq_refl eq_refl).
Defined.

(** ** Widening a selection *)

Lemma isin_effective_incl present selected selected' v :
  incl selected selected' -> In v present ->
  isin v (effective present selected) = true ->
  isin v (effective present selected') = true.
Proof.
  intros Hincl Hv H. apply isin_In. apply isin_In in H.
  destruct (isin ALL selected') eqn:E'.
  - apply isin_In in E'. rewrite (effective_ALL _ _ E').
    apply (in_unique _ pyval_eqb_eq). exact Hv.
  - assert (N' : ~ In ALL selected')
      by (intros H'; apply isin_In in H'; congruence).
    assert (N : ~ In ALL selected) by (intros H'; apply N', Hincl, H').
    rewrite (effective_explicit _ _ N'). rewrite (effective_explicit _ _ N) in H.
    apply Hincl. exact H.
Qed.

(** X18. Widening a selection never removes a row: if every item selected
    for the years is still selected, and likewise for the payers, then every
    row that passed the filter still passes it. *)
Theorem X18_wider_selection_keeps_rows
    (df : list Claim) (selected_year selected_year' : list pyval)
    (selected_insurance selected_insurance' : list pyval) :
  incl selected_year selected_year' ->
  incl selected_insurance selected_insurance' ->
  incl (filtered_df df selected_year selected_insurance)
       (filtered_df df selected_year' selected_insurance').
Proof.
  intros Hy Hi c Hc. unfold filtered_df, effective_year, effective_insurance in *.
  apply filter_In in Hc. destruct Hc as [Hc H].
  apply andb_true_iff in H. destruct H as [H1 H2].
  apply filter_In. split; [exact Hc |]. apply andb_true_iff. split.
  - apply (isin_effective_incl _ selected_year); [exact Hy | | exact H1].
    apply in_map. exact Hc.
  - apply (isin_effective_incl _ selected_insurance); [exact Hi | | exact H2].
    apply in_map. exact Hc.
Qed.

Lemma X18_wider_selection_keeps_rows_witness :
  incl (filtered_df mixed_claims [PInt 2021] [PStr "Acme"])
       (filtered_df mixed_claims [PInt 2021; PInt 2020] [PStr "Acme"; ALL]).
Proof.
  refine (X18_wider_selection_keeps_rows mixed_claims _ _ _ _ _ _).
  - intros v [<- | []]. left. reflexivity.
  - intros v [<- | []]. left. reflexivity.
Defined.
